(** * The line editor of elvish: editor state, history, completion,
      the ReadLine session and the mode-line renderer.

    A shallow embedding of the editor (package [edit]: [editorState],
    [historyState], [Editor], [LineRead], [keyBindings], [acceptCompletion],
    [acceptHistory], [SetupTerminal], [CleanupTerminal], [startReadLine],
    [finishReadLine], [ReadLine]) and of the mode-line renderers of the same
    package ([modeLineRenderer], [modeLineWithScrollBarRenderer]).  Go values
    are modelled as follows.

    - [int] is a 64-bit two's-complement integer: a [Z] together with the
      wrap-around of [+] and [-] ([Go.int_add], [Go.int_sub]).
    - [string] is a sequence of bytes: [String.string]; [len] is its byte
      length; slicing [s[lo:hi]] panics outside [0 <= lo <= hi <= len(s)].
    - A nil-able pointer is an [option]; a run-time panic is the [Panic]
      outcome of the result type [res], which keeps the state reached.
    - Packages that the editor only calls ([tty], the key reader, the screen
      writer, the highlighter, the table of editor builtins, the key
      constants) are the fields of the record [Externals], over an abstract
      [World]; the screen buffer is the record [BufferOps].
    - Loops that need not end (the loop of ReadLine, the re-dispatch of a
      key) take fuel and return [None] when it runs out.                    *)

From Stdlib Require Import ZArith List String Ascii Bool Lia.
Import ListNotations.

Open Scope string_scope.
Open Scope list_scope.
Open Scope Z_scope.

(* ================================================================== *)
(** ** Go primitives                                                    *)
(* ================================================================== *)

Module Go.

(** [int] on a 64-bit platform. *)
Definition min_int : Z := - 2 ^ 63.
Definition max_int : Z := 2 ^ 63 - 1.

Definition is_int (z : Z) : Prop := min_int <= z <= max_int.

(** Two's-complement wrap-around of a mathematical integer. *)
Definition wrap (z : Z) : Z := (z + 2 ^ 63) mod 2 ^ 64 - 2 ^ 63.

Definition int_add (a b : Z) : Z := wrap (a + b).
Definition int_sub (a b : Z) : Z := wrap (a - b).

(** [len(s)] for a string: the number of bytes. *)
Definition len (s : string) : Z := Z.of_nat (String.length s).

(** [len(l)] for a slice. *)
Definition len_slice {A} (l : list A) : Z := Z.of_nat (List.length l).

(** [l[i]]: [None] is the index-out-of-range panic. *)
Definition index {A} (l : list A) (i : Z) : option A :=
  if (0 <=? i) && (i <? len_slice l) then nth_error l (Z.to_nat i) else None.

(** [s[lo:hi]]: [None] is the slice-bounds-out-of-range panic. *)
Definition slice (s : string) (lo hi : Z) : option string :=
  if (0 <=? lo) && (lo <=? hi) && (hi <=? len s)
  then Some (substring (Z.to_nat lo) (Z.to_nat (hi - lo)) s)
  else None.

(** [s[:hi]] and [s[lo:]]. *)
Definition slice_to (s : string) (hi : Z) : option string := slice s 0 hi.
Definition slice_from (s : string) (lo : Z) : option string := slice s lo (len s).

(** [strings.HasPrefix(s, prefix)]:
    [len(s) >= len(prefix) && s[0:len(prefix)] == prefix]. *)
Definition HasPrefix (s prefix : string) : bool :=
  (len prefix <=? len s) &&
  (substring 0 (String.length prefix) s =? prefix)%string.

(** Outcome of a call that runs on a state [S]: it returns a value, or it
    panics; both keep the state reached. *)
Inductive res (S A : Type) : Type :=
| Ok (a : A) (s : S)
| Panic (msg : string) (s : S).
Arguments Ok {S A} a s.
Arguments Panic {S A} msg s.

Definition M (S A : Type) : Type := S -> res S A.

Definition ret {S A} (a : A) : M S A := fun s => Ok a s.

Definition bind {S A B} (c : M S A) (k : A -> M S B) : M S B :=
  fun s => match c s with
           | Ok a s' => k a s'
           | Panic msg s' => Panic msg s'
           end.

Definition panic {S A} (msg : string) : M S A := fun s => Panic msg s.

Definition get {S} : M S S := fun s => Ok s s.

Definition modify {S} (f : S -> S) : M S unit := fun s => Ok tt (f s).

(** Lifts a partial primitive: [None] panics with [msg]. *)
Definition try {S A} (o : option A) (msg : string) : M S A :=
  match o with
  | Some a => ret a
  | None => panic msg
  end.

End Go.

Import Go.

Declare Scope go_scope.
Delimit Scope go_scope with go.
Notation "x <- c ;; k" := (bind c (fun x => k))
  (at level 100, c at next level, right associativity) : go_scope.
Notation "c ;;; k" := (bind c (fun _ => k))
  (at level 100, right associativity) : go_scope.

(* ================================================================== *)
(** ** Data model of editor.go                                          *)
(* ================================================================== *)

(** [bufferMode] *)
Inductive bufferMode : Type :=
| modeInsert
| modeCommand
| modeCompletion
| modeNavigation
| modeHistory.

Definition bufferMode_eqb (a b : bufferMode) : bool :=
  match a, b with
  | modeInsert, modeInsert
  | modeCommand, modeCommand
  | modeCompletion, modeCompletion
  | modeNavigation, modeNavigation
  | modeHistory, modeHistory => true
  | _, _ => false
  end.

(** [historyState] *)
Record historyState : Type := mkHistoryState {
  items : list string;
  current : Z;
  saved : string;
  prefix : string
}.

(** A completion candidate and the completion state; of the fields of
    [completion], [acceptCompletion] reads these four. *)
Record candidate : Type := mkCandidate {
  text : string
}.

Record completion : Type := mkCompletion {
  candidates : list candidate;
  c_current : Z;   (* current *)
  start : Z;
  end_ : Z         (* end *)
}.

(** [LineRead]: the result of ReadLine.  [Err] is nil ([None]) or an error,
    which is modelled by its message. *)
Definition error : Type := string.

Record LineRead : Type := mkLineRead {
  Line : string;
  EOF : bool;
  Err : option error
}.

(** ** History *)

(** [hs.append(line)] *)
Definition history_append (hs : historyState) (line : string) : historyState :=
  mkHistoryState (items hs ++ [line]) (current hs) (saved hs) (prefix hs).

Definition set_current (hs : historyState) (i : Z) : historyState :=
  mkHistoryState (items hs) i (saved hs) (prefix hs).

(** The loop of [prev]: [for i := ...; i >= 0; i--].  [None] only when the
    fuel runs out. *)
Fixpoint prev_loop (fuel : nat) (i : Z) (hs : historyState)
  : option (res historyState bool) :=
  match fuel with
  | O => None
  | S fuel' =>
      if 0 <=? i then
        match index (items hs) i with
        | None => Some (Panic "index out of range" hs)
        | Some s =>
            if HasPrefix s (prefix hs)
            then Some (Ok true (set_current hs i))
            else prev_loop fuel' (int_sub i 1) hs
        end
      else Some (Ok false hs)
  end.

(** The loop of [next]: [for i := ...; i < len(hs.items); i++]. *)
Fixpoint next_loop (fuel : nat) (i : Z) (hs : historyState)
  : option (res historyState bool) :=
  match fuel with
  | O => None
  | S fuel' =>
      if i <? len_slice (items hs) then
        match index (items hs) i with
        | None => Some (Panic "index out of range" hs)
        | Some s =>
            if HasPrefix s (prefix hs)
            then Some (Ok true (set_current hs i))
            else next_loop fuel' (int_add i 1) hs
        end
      else Some (Ok false hs)
  end.

(** Enough fuel for every run of the two loops: each iteration either
    leaves the loop or moves [i] one step inside [0 .. len(items)]. *)
Definition history_fuel (hs : historyState) : nat :=
  S (S (List.length (items hs))).

(** [hs.prev()] *)
Definition prev (hs : historyState) : option (res historyState bool) :=
  prev_loop (history_fuel hs) (int_sub (current hs) 1) hs.

(** [hs.next()] *)
Definition next (hs : historyState) : option (res historyState bool) :=
  next_loop (history_fuel hs) (int_add (current hs) 1) hs.

(* ================================================================== *)
(** ** Keys, actions and the editor                                     *)
(* ================================================================== *)

(** [Key{rune, mod}]. *)
Record Key : Type := mkKey {
  Rune : Z;
  Mod : Z
}.

Definition Key_eqb (a b : Key) : bool :=
  (Rune a =? Rune b) && (Mod a =? Mod b).

(** A rune literal. *)
Definition rune (c : ascii) : Z := Z.of_N (N_of_ascii c).

(** The [action] of a builtin's return value. *)
Inductive action_t : Type :=
| noAction
| changeMode
| changeModeAndReprocess
| exitReadLine.

(** [leReturn] *)
Record leReturn : Type := mkLeReturn {
  action : action_t;
  newMode : bufferMode;
  readLineReturn : LineRead
}.

(** A Go map written as a literal: the bindings in the order of the source;
    [lookup] is [m[k]] with its [ok] result. *)
Fixpoint lookup {K V} (eqb : K -> K -> bool) (m : list (K * V)) (k : K)
  : option V :=
  match m with
  | [] => None
  | (k', v) :: m' => if eqb k' k then Some v else lookup eqb m' k
  end.

Section EditorModel.

(** Types of the packages the editor is built on: [parse.Item], the
    navigation state, [tty.Termios], and everything behind the terminal,
    the key reader, the screen writer and the evaluator. *)
Context {Item Navigation Termios World : Type}.

(** [editorState] *)
Record editorState : Type := mkEditorState {
  tokens : list Item;
  prompt : string;
  rprompt : string;
  line : string;
  dot : Z;
  tips : list string;
  mode : bufferMode;
  completion_ : option completion;   (* completion *)
  completionLines : Z;
  navigation : option Navigation;
  history : historyState
}.

(** [Editor].  [file] is the terminal as the editor writes to it: the
    strings passed to [file.WriteString], oldest first.  [world] stands
    for [writer], [reader], [ev] and [sigch]. *)
Record Editor : Type := mkEditor {
  savedTermios : option Termios;
  file : list string;
  world : World;
  es : editorState
}.

(** *** Field updates *)

Definition with_es (f : editorState -> editorState) (ed : Editor) : Editor :=
  mkEditor (savedTermios ed) (file ed) (world ed) (f (es ed)).

Definition set_tokens (v : list Item) (s : editorState) : editorState :=
  mkEditorState v (prompt s) (rprompt s) (line s) (dot s) (tips s) (mode s)
    (completion_ s) (completionLines s) (navigation s) (history s).
Definition set_prompt (v : string) (s : editorState) : editorState :=
  mkEditorState (tokens s) v (rprompt s) (line s) (dot s) (tips s) (mode s)
    (completion_ s) (completionLines s) (navigation s) (history s).
Definition set_rprompt (v : string) (s : editorState) : editorState :=
  mkEditorState (tokens s) (prompt s) v (line s) (dot s) (tips s) (mode s)
    (completion_ s) (completionLines s) (navigation s) (history s).
Definition set_line (v : string) (s : editorState) : editorState :=
  mkEditorState (tokens s) (prompt s) (rprompt s) v (dot s) (tips s) (mode s)
    (completion_ s) (completionLines s) (navigation s) (history s).
Definition set_dot (v : Z) (s : editorState) : editorState :=
  mkEditorState (tokens s) (prompt s) (rprompt s) (line s) v (tips s) (mode s)
    (completion_ s) (completionLines s) (navigation s) (history s).
Definition set_tips (v : list string) (s : editorState) : editorState :=
  mkEditorState (tokens s) (prompt s) (rprompt s) (line s) (dot s) v (mode s)
    (completion_ s) (completionLines s) (navigation s) (history s).
Definition set_mode (v : bufferMode) (s : editorState) : editorState :=
  mkEditorState (tokens s) (prompt s) (rprompt s) (line s) (dot s) (tips s) v
    (completion_ s) (completionLines s) (navigation s) (history s).
Definition set_completion (v : option completion) (s : editorState)
  : editorState :=
  mkEditorState (tokens s) (prompt s) (rprompt s) (line s) (dot s) (tips s)
    (mode s) v (completionLines s) (navigation s) (history s).
Definition set_history (v : historyState) (s : editorState) : editorState :=
  mkEditorState (tokens s) (prompt s) (rprompt s) (line s) (dot s) (tips s)
    (mode s) (completion_ s) (completionLines s) (navigation s) v.

Definition set_savedTermios (v : option Termios) (ed : Editor) : Editor :=
  mkEditor v (file ed) (world ed) (es ed).
Definition set_world (w : World) (ed : Editor) : Editor :=
  mkEditor (savedTermios ed) (file ed) w (es ed).

(** [file.WriteString(s)]; the editor drops its result. *)
Definition WriteString (s : string) : M Editor unit :=
  modify (fun ed => mkEditor (savedTermios ed) (file ed ++ [s]) (world ed) (es ed)).

(** A call into the world. *)
Definition call {A} (f : World -> A * World) : M Editor A :=
  fun ed => let '(a, w) := f (world ed) in Ok a (set_world w ed).

(** [ed.beep()] *)
Definition beep : M Editor unit := ret tt.

(** [ed.pushTip(more)] *)
Definition pushTip (more : string) : M Editor unit :=
  modify (with_es (fun s => set_tips (tips s ++ [more]) s)).

(** *** Accepting a completion or a history entry *)

(** [ed.acceptCompletion()] *)
Definition acceptCompletion : M Editor unit :=
  (ed <- get ;;
   c <- try (completion_ (es ed)) "nil pointer dereference" ;;
   (if (0 <=? c_current c) && (c_current c <? len_slice (candidates c)) then
      cand <- try (index (candidates c) (c_current c)) "index out of range" ;;
      let accepted := text cand in
      l <- try (slice_to (line (es ed)) (start c)) "slice bounds out of range" ;;
      r <- try (slice_from (line (es ed)) (end_ c)) "slice bounds out of range" ;;
      modify (with_es (set_line (l ++ accepted ++ r)%string)) ;;;
      modify (with_es (fun s =>
        set_dot (int_add (dot s)
                   (int_sub (len accepted) (int_sub (end_ c) (start c)))) s))
    else ret tt) ;;;
   modify (with_es (set_completion None)) ;;;
   modify (with_es (set_mode modeInsert)))%go.

(** [ed.acceptHistory()] *)
Definition acceptHistory : M Editor unit :=
  (ed <- get ;;
   l <- try (index (items (history (es ed))) (current (history (es ed))))
          "index out of range" ;;
   modify (with_es (set_line l)) ;;;
   modify (with_es (fun s => set_dot (len (line s)) s)))%go.

(** *** The packages behind the editor *)

(** An editor builtin: a function of the editor and the key that returns
    a pointer to a [leReturn], or nil. *)
Definition leBuiltin : Type := Editor -> Key -> res Editor (option leReturn).

(** What editor.go calls and does not define.  A call that may fail
    returns its value on the left or its error on the right; a call whose
    only result is an error returns [None] for nil. *)
Record Externals : Type := mkExternals {
  (* package tty *)
  NewTermiosFromFd : World -> (Termios + error) * World;
  Copy : Termios -> Termios;
  SetIcanon : bool -> Termios -> Termios;
  SetEcho : bool -> Termios -> Termios;
  SetMin : Z -> Termios -> Termios;
  SetTime : Z -> Termios -> Termios;
  ApplyToFd : Termios -> World -> option error * World;
  FlushInput : World -> option error * World;
  (* the key reader; [readCPR] returns row, then column *)
  readCPR : World -> ((Z * Z) + error) * World;
  readKey : World -> (Key + error) * World;
  (* the highlighter, with its channel read to the end *)
  Highlight : string -> string -> World -> list Item;
  (* the screen writer: [writer.refresh] and [writer.oldBuf.cells = nil] *)
  writer_refresh : editorState -> World -> option error * World;
  writer_clear_oldBuf : World -> World;
  (* builtins.go: the registry of editor builtins; [None] is nil *)
  leBuiltins : string -> option leBuiltin;
  (* key.go: modifiers, special keys and the default binding *)
  Ctrl : Z;
  Alt : Z;
  Backspace : Z;
  Delete : Z;
  Left : Z;
  Right : Z;
  Up : Z;
  Down : Z;
  Enter : Z;
  Tab : Z;
  PageUp : Z;
  PageDown : Z;
  DefaultBinding : Key
}.

Variable X : Externals.

(** Modelled from the spec: the two numbers of the reply of [readCPR], of
    reader.go, which is not among the sources.  The spec gives the reader
    as "readCPR() -> (row, col) | err": the row comes first. *)
Definition cpr_row (p : Z * Z) : Z := fst p.
Definition cpr_col (p : Z * Z) : Z := snd p.

(** [LackEOL]: reverse video, U+23CE, reset, newline. *)
Definition ESC : string := String "027" "".
Definition LackEOL : string :=
  (ESC ++ "[7m" ++ String "226" (String "143" (String "142" ""))
       ++ ESC ++ "[m" ++ String "010" "")%string.

(** [ed.refresh()] *)
Definition refresh : M Editor (option error) :=
  (ed <- get ;;
   (if negb (bufferMode_eqb (mode (es ed)) modeCompletion) then
      modify (with_es (set_tokens [])) ;;;
      modify (with_es (fun s =>
        set_tokens (tokens s ++
                    Highlight X "<interactive code>" (line s) (world ed)) s))
    else ret tt) ;;;
   ed <- get ;;
   call (writer_refresh X (es ed)))%go.

(** [keyBindings] *)
Definition keyBindings : list (bufferMode * list (Key * string)) :=
  [ (modeCommand,
     [ (mkKey (rune "i") 0, "start-insert");
       (mkKey (rune "h") 0, "move-dot-left");
       (mkKey (rune "l") 0, "move-dot-right");
       (mkKey (rune "D") 0, "kill-line-right");
       (DefaultBinding X, "default-command") ]);
    (modeInsert,
     [ (mkKey (rune "[") (Ctrl X), "start-command");
       (mkKey (rune "U") (Ctrl X), "kill-line-left");
       (mkKey (rune "K") (Ctrl X), "kill-line-right");
       (mkKey (Backspace X) 0, "kill-rune-left");
       (mkKey (Delete X) 0, "kill-rune-right");
       (mkKey (Left X) 0, "move-dot-left");
       (mkKey (Right X) 0, "move-dot-right");
       (mkKey (Up X) 0, "move-dot-up");
       (mkKey (Down X) 0, "move-dot-down");
       (mkKey (Enter X) (Alt X), "insert-key");
       (mkKey (Enter X) 0, "return-line");
       (mkKey (rune "D") (Ctrl X), "return-eof");
       (mkKey (Tab X) 0, "start-completion");
       (mkKey (PageUp X) 0, "start-history");
       (mkKey (rune "N") (Ctrl X), "start-navigation");
       (DefaultBinding X, "default-insert") ]);
    (modeCompletion,
     [ (mkKey (rune "[") (Ctrl X), "cancel-completion");
       (mkKey (Up X) 0, "select-cand-up");
       (mkKey (Down X) 0, "select-cand-down");
       (mkKey (Left X) 0, "select-cand-left");
       (mkKey (Right X) 0, "select-cand-right");
       (mkKey (Tab X) 0, "cycle-cand-right");
       (DefaultBinding X, "default-completion") ]);
    (modeNavigation,
     [ (mkKey (Up X) 0, "select-nav-up");
       (mkKey (Down X) 0, "select-nav-down");
       (mkKey (Left X) 0, "ascend-nav");
       (mkKey (Right X) 0, "descend-nav");
       (DefaultBinding X, "default-navigation") ]);
    (modeHistory,
     [ (mkKey (rune "[") (Ctrl X), "cancel-history");
       (mkKey (PageUp X) 0, "select-history-prev");
       (mkKey (PageDown X) 0, "select-history-next");
       (DefaultBinding X, "default-history") ]) ].

(** [for _, x := range l { body }] *)
Fixpoint range {S A} (l : list A) (body : A -> M S unit) : M S unit :=
  match l with
  | [] => ret tt
  | x :: l' => (body x ;;; range l' body)%go
  end.

(** [init()]: the check of the table at start-up. *)
Definition init : M unit unit :=
  range keyBindings (fun kb =>
    range (snd kb) (fun b =>
      match leBuiltins X (snd b) with
      | None =>
          panic ("bad keyBindings table: no editor builtin named " ++ snd b)%string
      | Some _ => ret tt
      end)).

(** *** The terminal session *)

(** [fmt.Errorf(msg + ": %s", err)] *)
Definition Errorf (msg : string) (err : error) : error :=
  (msg ++ ": " ++ err)%string.

(** [SetupTerminal(file)] *)
Definition SetupTerminal : M Editor (Termios + error) :=
  (t <- call (NewTermiosFromFd X) ;;
   match t with
   | inr err => ret (inr (Errorf "can't get terminal attribute" err))
   | inl term =>
       let savedTermios := Copy X term in
       let term := SetIcanon X false term in
       let term := SetEcho X false term in
       let term := SetMin X 1 term in
       let term := SetTime X 0 term in
       e <- call (ApplyToFd X term) ;;
       match e with
       | Some err => ret (inr (Errorf "can't set up terminal attribute" err))
       | None =>
           (* Set autowrap off *)
           WriteString (ESC ++ "[?7l")%string ;;;
           e <- call (FlushInput X) ;;
           match e with
           | Some err => ret (inr (Errorf "can't flush input" err))
           | None => ret (inl savedTermios)
           end
       end
   end)%go.

(** [CleanupTerminal(file, savedTermios)] *)
Definition CleanupTerminal (savedTermios : option Termios)
  : M Editor (option error) :=
  ((* Set autowrap on *)
   WriteString (ESC ++ "[?7h")%string ;;;
   t <- try savedTermios "nil pointer dereference" ;;
   call (ApplyToFd X t))%go.

(** [ed.startReadLine()] *)
Definition startReadLine : M Editor (option error) :=
  (r <- SetupTerminal ;;
   match r with
   | inr err => ret (Some err)
   | inl savedTermios =>
       modify (set_savedTermios (Some savedTermios)) ;;;
       (* Query cursor location *)
       WriteString (ESC ++ "[6n")%string ;;;
       c <- call (readCPR X) ;;
       match c with
       | inr err => ret (Some err)
       | inl (x, _) =>
           (if negb (x =? 1) then WriteString LackEOL else ret tt) ;;;
           ret None
       end
   end)%go.

(** The statements of [finishReadLine] before the terminal is restored. *)
Definition finishReadLine_reset (lr : LineRead) : M Editor unit :=
  ((if negb (EOF lr) && match Err lr with None => true | Some _ => false end
    then modify (with_es (fun s =>
           set_history (history_append (history s) (Line lr)) s))
    else ret tt) ;;;
   modify (with_es (set_tips [])) ;;;
   modify (with_es (set_mode modeInsert)) ;;;
   modify (with_es (set_completion None)) ;;;
   modify (with_es (fun s => set_dot (len (line s)) s)) ;;;
   (* TODO Perhaps make it optional to NOT clear the rprompt *)
   modify (with_es (set_rprompt "")) ;;;
   _ <- refresh ;; (* XXX(xiaq): Ignore possible error *)
   WriteString (String "010" ""))%go.

(** [ed.finishReadLine(lr)]; the value returned is [*lr] at the end. *)
Definition finishReadLine (lr : LineRead) : M Editor LineRead :=
  (finishReadLine_reset lr ;;;
   ed <- get ;;
   err <- CleanupTerminal (savedTermios ed) ;;
   let lr :=
     match err with
     | Some e =>
         (* BUG(xiaq): Error in Editor.finishReadLine may override earlier
            error *)
         mkLineRead "" false (Some (Errorf "can't restore terminal attribute" e))
     | None => lr
     end in
   modify (set_savedTermios None) ;;;
   ret lr)%go.

(** *** The loop of ReadLine *)

(** The label [lookupKey] and what follows it, for the key [k]: the
    result is [Some lr] when ReadLine returns [lr], and [None] when the
    loop goes on.  Outside, [None] means the fuel ran out. *)
Fixpoint lookupKey (fuel : nat) (k : Key) (ed : Editor)
  : option (res Editor (option LineRead)) :=
  match fuel with
  | O => None
  | S fuel' =>
      match lookup bufferMode_eqb keyBindings (mode (es ed)) with
      | None =>
          Some ((pushTip "No binding for current mode" ;;; ret None)%go ed)
      | Some keyBinding =>
          let name :=
            match lookup Key_eqb keyBinding k with
            | Some name => name
            | None =>
                match lookup Key_eqb keyBinding (DefaultBinding X) with
                | Some name => name
                | None => ""
                end
            end in
          match leBuiltins X name with
          | None => Some (Panic "nil pointer dereference" ed)
          | Some f =>
              match f ed k with
              | Panic msg ed1 => Some (Panic msg ed1)
              | Ok None ed1 => Some (Ok None ed1)
              | Ok (Some ret) ed1 =>
                  match action ret with
                  | noAction => Some (Ok None ed1)
                  | changeMode =>
                      Some (Ok None (with_es (set_mode (newMode ret)) ed1))
                  | changeModeAndReprocess =>
                      lookupKey fuel' k (with_es (set_mode (newMode ret)) ed1)
                  | exitReadLine => Some (Ok (Some (readLineReturn ret)) ed1)
                  end
              end
          end
      end
  end.

Section WithPrompts.

(** The two arguments of ReadLine: closures that return a string. *)
Variables prompt_fn rprompt_fn : World -> string * World.

(** One pass of the [for] loop up to the key: [inl lr] returns [lr],
    [inr None] is [continue], [inr (Some k)] goes on to [lookupKey]. *)
Definition readLineHead : M Editor (LineRead + option Key) :=
  (p <- call prompt_fn ;;
   modify (with_es (set_prompt p)) ;;;
   rp <- call rprompt_fn ;;
   modify (with_es (set_rprompt rp)) ;;;
   err <- refresh ;;
   match err with
   | Some e => ret (inl (mkLineRead "" false (Some e)))
   | None =>
       modify (with_es (set_tips [])) ;;;
       k <- call (readKey X) ;;
       match k with
       | inr e => pushTip e ;;; ret (inr None)
       | inl k => ret (inr (Some k))
       end
   end)%go.

(** The [for] loop. *)
Fixpoint readLineLoop (fuel : nat) (ed : Editor)
  : option (res Editor LineRead) :=
  match fuel with
  | O => None
  | S fuel' =>
      match readLineHead ed with
      | Panic msg ed1 => Some (Panic msg ed1)
      | Ok (inl lr) ed1 => Some (Ok lr ed1)
      | Ok (inr None) ed1 => readLineLoop fuel' ed1
      | Ok (inr (Some k)) ed1 =>
          match lookupKey fuel' k ed1 with
          | None => None
          | Some (Panic msg ed2) => Some (Panic msg ed2)
          | Some (Ok (Some lr) ed2) => Some (Ok lr ed2)
          | Some (Ok None ed2) => readLineLoop fuel' ed2
          end
      end
  end.

(** The statements of ReadLine before the loop. *)
Definition readLineInit (ed : Editor) : Editor :=
  set_world (writer_clear_oldBuf X (world ed))
    (with_es (fun s =>
       set_dot 0 (set_completion None (set_tips []
         (set_mode modeInsert (set_line "" s))))) ed).

(** [ed.ReadLine(prompt, rprompt)].  The deferred [finishReadLine] sees
    the value being returned and may replace it; when the loop panics
    it runs on the zero [LineRead] and the panic goes on. *)
Definition ReadLine (fuel : nat) (ed : Editor)
  : option (res Editor LineRead) :=
  match startReadLine ed with
  | Panic msg ed1 => Some (Panic msg ed1)
  | Ok (Some err) ed1 => Some (Ok (mkLineRead "" false (Some err)) ed1)
  | Ok None ed1 =>
      match readLineLoop fuel (readLineInit ed1) with
      | None => None
      | Some (Ok lr ed2) => Some (finishReadLine lr ed2)
      | Some (Panic msg ed2) =>
          match finishReadLine (mkLineRead "" false None) ed2 with
          | Ok _ ed3 => Some (Panic msg ed3)
          | Panic msg' ed3 => Some (Panic msg' ed3)
          end
      end
  end.

End WithPrompts.

End EditorModel.

(* ================================================================== *)
(** ** Renderers (renderer.go)                                          *)
(* ================================================================== *)

(** The calls a renderer makes to draw on the buffer, in the order made. *)
Inductive drawCall : Type :=
| CallWrites (text style : string)
| CallWriteHorizontalScrollbar (n low high width : Z).

Section Renderer.

(** The screen buffer, its cells and its positions (buffer.go). *)
Context {buffer cell Pos : Type}.

(** What renderer.go uses of the buffer and of the styles. *)
Record BufferOps : Type := mkBufferOps {
  width : buffer -> Z;                       (* b.width *)
  cells : buffer -> list (list cell);        (* b.cells *)
  cursor : buffer -> Pos;                    (* b.cursor() *)
  set_b_dot : Pos -> buffer -> buffer;       (* b.dot = ... *)
  writes : string -> string -> buffer -> buffer;
  lineWidth : list cell -> Z;
  writeHorizontalScrollbar : buffer -> Z -> Z -> Z -> Z -> buffer;
  styleForMode : string;                     (* styleForMode.String() *)
  styleForFilter : string                    (* styleForFilter.String() *)
}.

Variable B : BufferOps.

(** A render runs on the buffer and on the record of the calls made. *)
Definition canvas : Type := buffer * list drawCall.

(** [b.writes(text, style)] *)
Definition do_writes (text style : string) : M canvas unit :=
  modify (fun c : canvas =>
    (writes B text style (fst c), snd c ++ [CallWrites text style])).

(** [writeHorizontalScrollbar(b, n, low, high, width)] *)
Definition do_writeHorizontalScrollbar (n low high w : Z) : M canvas unit :=
  modify (fun c : canvas =>
    (writeHorizontalScrollbar B (fst c) n low high w,
     snd c ++ [CallWriteHorizontalScrollbar n low high w])).

(** [modeLineRenderer] *)
Record modeLineRenderer : Type := mkModeLineRenderer {
  title : string;
  filter : string
}.

(** [ml.render(b)] for a [modeLineRenderer] *)
Definition modeLineRenderer_render (ml : modeLineRenderer) : M canvas unit :=
  (do_writes (title ml) (styleForMode B) ;;;
   do_writes " " "" ;;;
   do_writes (filter ml) (styleForFilter B) ;;;
   modify (fun c : canvas => (set_b_dot B (cursor B (fst c)) (fst c), snd c)))%go.

(** [modeLineWithScrollBarRenderer] *)
Record modeLineWithScrollBarRenderer : Type := mkModeLineWithScrollBarRenderer {
  modeLine : modeLineRenderer;   (* the embedded modeLineRenderer *)
  n : Z;
  low : Z;
  high : Z
}.

(** [ml.render(b)] for a [modeLineWithScrollBarRenderer] *)
Definition modeLineWithScrollBarRenderer_render
    (ml : modeLineWithScrollBarRenderer) : M canvas unit :=
  (modeLineRenderer_render (modeLine ml) ;;;
   c <- get ;;
   let b := fst c in
   last <- try (index (cells B b) (int_sub (len_slice (cells B b)) 1))
             "index out of range" ;;
   let scrollbarWidth := int_sub (int_sub (width B b) (lineWidth B last)) 2 in
   if 3 <=? scrollbarWidth then
     do_writes " " "" ;;;
     do_writeHorizontalScrollbar (n ml) (low ml) (high ml) scrollbarWidth
   else ret tt)%go.

(** The columns left on the last row of [b] after what is written there. *)
Definition columnsLeft (b : buffer) : option Z :=
  match index (cells B b) (len_slice (cells B b) - 1) with
  | Some last => Some (width B b - lineWidth B last)
  | None => None
  end.

(** A horizontal scrollbar is among the calls. *)
Definition scrollbarDrawn (calls : list drawCall) : Prop :=
  exists n low high w, In (CallWriteHorizontalScrollbar n low high w) calls.

End Renderer.

(* ================================================================== *)
(** ** Scenarios: a scripted terminal and a plain buffer                *)
(* ================================================================== *)

Module Scripted.

(** The terminal as a script: the keys the reader will deliver, the reply
    to the cursor-position query, and the results of the successive
    [ApplyToFd] calls (nil once the list is used up). *)
Record world : Type := mkWorld {
  keys : list (Key + error);
  cpr : (Z * Z) + error;
  applies : list (option error)
}.

Record termios : Type := mkTermios {
  icanon : bool;
  echo : bool;
  vmin : Z;
  vtime : Z
}.

Definition editor : Type := @Editor unit unit termios world.

Definition next_key (w : world) : (Key + error) * world :=
  match keys w with
  | [] => (inr "no key", w)
  | k :: ks => (k, mkWorld ks (cpr w) (applies w))
  end.

Definition next_apply (t : termios) (w : world) : option error * world :=
  match applies w with
  | [] => (None, w)
  | e :: es => (e, mkWorld (keys w) (cpr w) es)
  end.

(** Modelled from the spec: the builtin [return-line] of builtins.go, which
    is not among the sources.  The spec has it submit the line: scenario
    S1 ends with Enter and expects [LineRead{Line: "hello"}]. *)
Definition returnLine : @leBuiltin unit unit termios world :=
  fun ed k =>
    Ok (Some (mkLeReturn exitReadLine modeInsert
                (mkLineRead (line (es ed)) false None))) ed.

(** Modelled from the spec: the builtin [return-eof] of builtins.go, which
    is not among the sources.  The spec has it exit with EOF when the line
    is empty and ignore the key otherwise (scenarios S2 and S3). *)
Definition returnEOF : @leBuiltin unit unit termios world :=
  fun ed k =>
    if len (line (es ed)) =? 0
    then Ok (Some (mkLeReturn exitReadLine modeInsert
                     (mkLineRead "" true None))) ed
    else Ok None ed.

(** Modelled from the spec: the builtin [default-insert] of builtins.go,
    which is not among the sources.  The spec has printable keys insert at
    the dot; the rune is taken as one byte. *)
Definition defaultInsert : @leBuiltin unit unit termios world :=
  fun ed k =>
    let s := String (ascii_of_N (Z.to_N (Rune k))) "" in
    (l <- try (slice_to (line (es ed)) (dot (es ed))) "slice bounds out of range" ;;
     r <- try (slice_from (line (es ed)) (dot (es ed))) "slice bounds out of range" ;;
     modify (with_es (set_line (l ++ s ++ r)%string)) ;;;
     modify (with_es (fun st => set_dot (int_add (dot st) (len s)) st)) ;;;
     ret None)%go ed.

Definition builtins (name : string) : option (@leBuiltin unit unit termios world) :=
  if (name =? "return-line")%string then Some returnLine
  else if (name =? "return-eof")%string then Some returnEOF
  else if (name =? "default-insert")%string then Some defaultInsert
  else None.

Definition X : @Externals unit unit termios world :=
  {| NewTermiosFromFd := fun w => (inl (mkTermios true true 1 0), w);
     Copy := fun t => t;
     SetIcanon := fun b t => mkTermios b (echo t) (vmin t) (vtime t);
     SetEcho := fun b t => mkTermios (icanon t) b (vmin t) (vtime t);
     SetMin := fun z t => mkTermios (icanon t) (echo t) z (vtime t);
     SetTime := fun z t => mkTermios (icanon t) (echo t) (vmin t) z;
     ApplyToFd := next_apply;
     FlushInput := fun w => (None, w);
     readCPR := fun w => (cpr w, w);
     readKey := next_key;
     Highlight := fun _ _ _ => [];
     writer_refresh := fun _ w => (None, w);
     writer_clear_oldBuf := fun w => w;
     leBuiltins := builtins;
     Ctrl := 4;
     Alt := 2;
     Backspace := 127;
     Delete := -1;
     Left := -2;
     Right := -3;
     Up := -4;
     Down := -5;
     Enter := 10;
     Tab := 9;
     PageUp := -6;
     PageDown := -7;
     DefaultBinding := mkKey (-8) 0 |}.

(** The editor as [New] makes it, on the world [w]. *)
Definition New (w : world) : editor :=
  mkEditor None [] w
    (mkEditorState [] "" "" "" 0 [] modeInsert None 0 None
       (mkHistoryState [] 0 "" "")).

(** The same with the history [h]. *)
Definition NewWithHistory (h : list string) (w : world) : editor :=
  with_es (set_history (mkHistoryState h 0 "" "")) (New w).

Definition no_prompt (w : world) : string * world := ("", w).

Definition key (c : ascii) : Key + error := inl (mkKey (rune c) 0).
Definition key_Enter : Key + error := inl (mkKey 10 0).
Definition key_CtrlD : Key + error := inl (mkKey (rune "D") 4).

(** A buffer of single-width characters: its width and its rows. *)
Record buffer : Type := mkBuffer {
  b_width : Z;
  b_rows : list (list ascii);
  b_dot : Z * Z
}.

Fixpoint append_last (r : list ascii) (rows : list (list ascii))
  : list (list ascii) :=
  match rows with
  | [] => [r]
  | [l] => [l ++ r]
  | l :: rows' => l :: append_last r rows'
  end.

Definition B : @BufferOps buffer ascii (Z * Z) :=
  {| width := b_width;
     cells := b_rows;
     cursor := fun b =>
       (len_slice (b_rows b) - 1, len_slice (List.last (b_rows b) []));
     set_b_dot := fun p b => mkBuffer (b_width b) (b_rows b) p;
     writes := fun text _ b =>
       mkBuffer (b_width b)
         (append_last (list_ascii_of_string text) (b_rows b)) (b_dot b);
     lineWidth := fun l => len_slice l;
     writeHorizontalScrollbar := fun b _ _ _ w =>
       mkBuffer (b_width b)
         (append_last (repeat "-"%char (Z.to_nat w)) (b_rows b)) (b_dot b);
     styleForMode := "1;37;45";
     styleForFilter := "4" |}.

(** [newBuffer(width)]: one empty row. *)
Definition newBuffer (w : Z) : buffer := mkBuffer w [[]] (0, 0).

(** Scenario S5: three entries, the prefix "g", nothing selected yet. *)
Definition scenarioS5 : historyState :=
  mkHistoryState ["git status"; "gcc main.c"; "grep foo"] 3 "g" "g".

(** Scenario S6: the line "echo h" with the dot at its end, completing
    the last word; [sel] is the selected candidate. *)
Definition scenarioS6 (sel : Z) : editor :=
  mkEditor None [] (mkWorld [] (inl (1, 1)) [])
    (mkEditorState [] "" "" "echo h" 6 [] modeCompletion
       (Some (mkCompletion [mkCandidate "hello"; mkCandidate "help"] sel 5 6))
       0 None (mkHistoryState [] 0 "" "")).

(** History mode over the entries of S5 with the entry [sel] selected. *)
Definition scenarioHistory (sel : Z) : editor :=
  mkEditor None [] (mkWorld [] (inl (1, 1)) [])
    (mkEditorState [] "" "" "g" 1 [] modeHistory None 0 None
       (set_current scenarioS5 sel)).

(** Worlds of the scenarios.  S1: two letters and Enter. *)
Definition worldLine : world :=
  mkWorld [key "h"; key "i"; key_Enter] (inl (1, 1)) [].

(** S2: Ctrl-D on the empty line. *)
Definition worldCtrlD : world := mkWorld [key_CtrlD] (inl (1, 1)) [].

(** Enter on the empty line. *)
Definition worldEnter : world := mkWorld [key_Enter] (inl (1, 1)) [].

(** Two letters and Enter; setting the terminal up works and restoring it
    fails. *)
Definition worldRestoreFails : world :=
  mkWorld [key "h"; key "i"; key_Enter] (inl (1, 1)) [None; Some "EIO"].

(** The terminal reports the cursor at [row], [col]. *)
Definition worldCursorAt (row col : Z) : world :=
  mkWorld [key_Enter] (inl (row, col)) [].

End Scripted.

(* ================================================================== *)
(** ** Vocabulary of the statements                                     *)
(* ================================================================== *)

(** The entry at index [j] exists and starts with the prefix of [hs]. *)
Definition startsWithPrefix (hs : historyState) (j : Z) : bool :=
  match index (items hs) j with
  | Some s => HasPrefix s (prefix hs)
  | None => false
  end.

(** [current] is an index of [items] or one of the two ends next to them,
    and the number of entries is an [int] that can still be stepped over. *)
Definition historyInRange (hs : historyState) : Prop :=
  -1 <= current hs <= len_slice (items hs) /\ len_slice (items hs) < max_int.

(** The computation [c], when it returns, leaves the observation [h] of
    the state as it was. *)
Definition keeps {S T A : Type} (h : S -> T) (c : M S A) : Prop :=
  forall s a s', c s = Ok a s' -> h s' = h s.

(** The entries of the history of an editor. *)
Definition historyItems {Item Navigation Termios World : Type}
    (ed : @Editor Item Navigation Termios World) : list string :=
  items (history (es ed)).

(** No builtin of the registry adds, drops or changes history entries. *)
Definition builtinsKeepHistory {Item Navigation Termios World : Type}
    (X : @Externals Item Navigation Termios World) : Prop :=
  forall name f ed k r ed',
    leBuiltins X name = Some f ->
    f ed k = Ok r ed' ->
    historyItems ed' = historyItems ed.


(** The [LineRead] that [finishReadLine] puts in place of the result when
    restoring the terminal fails with [e]. *)
Definition restoreError (e : error) : LineRead :=
  mkLineRead "" false (Some (Errorf "can't restore terminal attribute" e)).

(** The rows of [b] are no wider than the buffer, and the sizes are
    [int]s. *)
Definition bufferInRange {buffer cell Pos : Type}
    (B : @BufferOps buffer cell Pos) (b : buffer) : Prop :=
  len_slice (cells B b) <= max_int /\
  width B b <= max_int /\
  (forall row, In row (cells B b) -> 0 <= lineWidth B row <= width B b).

(** The number of members of a [LineRead] that are not the zero value of
    their type. *)
Definition nonZeroMembers (lr : LineRead) : nat :=
  ((if (Line lr =? "")%string then 0 else 1) +
   (if EOF lr then 1 else 0) +
   (match Err lr with Some _ => 1 | None => 0 end))%nat.

(** The result is a line: neither end of input nor an error. *)
Definition isLine (lr : LineRead) : bool :=
  negb (EOF lr) && match Err lr with None => true | Some _ => false end.

(** The three sequences [SetupTerminal], [startReadLine] and
    [CleanupTerminal] write: autowrap off, the cursor-position query,
    autowrap on. *)
Definition autowrapOff : string := (String "027" "" ++ "[?7l")%string.
Definition cursorQuery : string := (String "027" "" ++ "[6n")%string.
Definition autowrapOn : string := (String "027" "" ++ "[?7h")%string.

(** The editor state as [finishReadLine] leaves it. *)
Definition editorAtRest {Item Navigation Termios World : Type}
    (ed : @Editor Item Navigation Termios World) : Prop :=
  tips (es ed) = [] /\
  mode (es ed) = modeInsert /\
  completion_ (es ed) = None /\
  rprompt (es ed) = "" /\
  dot (es ed) = len (line (es ed)) /\
  savedTermios ed = None.

(** The panic [msg] with the editor [ed'] was raised inside a builtin of
    the registry, called with the key [k]. *)
Definition panicOfBuiltin {Item Navigation Termios World : Type}
    (X : @Externals Item Navigation Termios World) (k : Key) (msg : string)
    (ed' : @Editor Item Navigation Termios World) : Prop :=
  exists name f ed0,
    leBuiltins X name = Some f /\ f ed0 k = Panic msg ed'.

(* ================================================================== *)
(** ** The highlighter (highlight.go)                                   *)
(* ================================================================== *)

(** The parse tree as the highlighter reads it.  Every node has a begin, an
    end and a source text; a [Primary] has a type, an [Indexing] a head, a
    [Compound] its indexings, an [Assignment] its left side, and a [Form]
    its assignments, variables, head and arguments.  A pointer that the
    code tests against nil is an [option]. *)
Module parse.

Record node : Type := mkNodeInfo {
  Begin : Z;
  End_ : Z;          (* End *)
  SourceText : string
}.

Module Primary.
Record t : Type := mk { info : node; Type_ : Z (* Type *) }.
End Primary.

Module Indexing.
Record t : Type := mk { info : node; Head : option Primary.t }.
End Indexing.

Module Compound.
Record t : Type := mk { info : node; Indexings : list Indexing.t }.
End Compound.

Module Assignment.
Record t : Type := mk { Left : option Indexing.t }.
End Assignment.

Module Form.
Record t : Type := mk {
  Assignments : list Assignment.t;
  Vars : list Compound.t;
  Head : option Compound.t;
  Args : list Compound.t
}.
End Form.

(** What the type switch of [highlight] tells apart. *)
Inductive kind : Type :=
| IsForm (f : Form.t)
| IsPrimary (p : Primary.t)
| IsSep (s : node)
| IsOther.

(** A node with its [Children()]. *)
#[local] Unset Elimination Schemes.
Inductive Node : Type :=
| mkNode (k : kind) (children : list Node).
#[local] Set Elimination Schemes.

End parse.

(** A call of [addStyling(begin, end, style)]. *)
Definition styling : Type := (Z * Z * string)%type.

(** What highlight.go uses and does not define: the styles and their
    [String()], [simpleCompound], and the [goodFormHead] of the
    [Highlighter]. *)
Record HighlightEnv : Type := mkHighlightEnv {
  styles_String : list string -> string;
  styleForGoodVariable : list string;
  styleForGoodCommand : list string;
  styleForBadCommand : list string;
  styleForComment : list string;
  styleForPrimaryType : Z -> list string;      (* styleForPrimary[t] *)
  styleForSep : string -> string;              (* styleForSep[s] *)
  simpleCompound : parse.Compound.t -> bool * string * option error;
  h_goodFormHead : string -> bool              (* s.goodFormHead *)
}.

Section Highlighter.

Variable H : HighlightEnv.

(** [s.addStyling(begin, end, style)]: the calls are kept, oldest first. *)
Definition addStyling (b e : Z) (style : string) : M (list styling) unit :=
  modify (fun calls => calls ++ [(b, e, style)]).

Definition addStylingAt (i : parse.node) (style : string)
  : M (list styling) unit :=
  addStyling (parse.Begin i) (parse.End_ i) style.

(** [v.Begin()], [v.End()] on a [*Primary] that may be nil. *)
Definition styleVariable (v : option parse.Primary.t) : M (list styling) unit :=
  (p <- try v "nil pointer dereference" ;;
   addStylingAt (parse.Primary.info p)
     (styles_String H (styleForGoodVariable H)))%go.

(** [s.formHead(n)] *)
Definition formHead (c : parse.Compound.t) : M (list styling) unit :=
  let '(simple, head, err) := simpleCompound H c in
  let st :=
    if simple then
      if h_goodFormHead H head then styleForGoodCommand H
      else styleForBadCommand H
    else match err with
         | Some _ => styleForBadCommand H
         | None => []
         end in
  if 0 <? len_slice st
  then addStylingAt (parse.Compound.info c) (styles_String H st)
  else ret tt.

(** The closure [highlightKeyword] of the [try] case, with its [i]. *)
Definition highlightKeyword (args : list parse.Compound.t) (i : Z)
    (name : string) : M (list styling) bool :=
  if len_slice args <=? i then ret false
  else
    (a <- try (index args i) "index out of range" ;;
     (if (parse.SourceText (parse.Compound.info a) =? name)%string
      then addStylingAt (parse.Compound.info a) (styleForSep H name)
      else ret tt) ;;;
     ret true)%go.

(** The [for] case. *)
Definition highlightFor (args : list parse.Compound.t) : M (list styling) unit :=
  ((if (1 <=? len_slice args) &&
       match index args 0 with
       | Some a => 0 <? len_slice (parse.Compound.Indexings a)
       | None => false
       end
    then
      a <- try (index args 0) "index out of range" ;;
      ix <- try (index (parse.Compound.Indexings a) 0) "index out of range" ;;
      styleVariable (parse.Indexing.Head ix)
    else ret tt) ;;;
   (if (4 <=? len_slice args) &&
       match index args 3 with
       | Some a => (parse.SourceText (parse.Compound.info a) =? "else")%string
       | None => false
       end
    then
      a <- try (index args 3) "index out of range" ;;
      addStylingAt (parse.Compound.info a) (styleForSep H "else")
    else ret tt))%go.

(** The [try] case. *)
Definition highlightTry (args : list parse.Compound.t) : M (list styling) unit :=
  (let i := 1 in
   r <- highlightKeyword args i "except" ;;
   i <- (if r : bool then
           (if (int_add i 1 <? len_slice args) &&
               match index args (int_add i 1) with
               | Some a => 0 <? len_slice (parse.Compound.Indexings a)
               | None => false
               end
            then
              a <- try (index args (int_add i 1)) "index out of range" ;;
              v <- try (index (parse.Compound.Indexings a) 0)
                     "index out of range" ;;
              addStylingAt (parse.Indexing.info v)
                (styles_String H (styleForGoodVariable H))
            else ret tt) ;;;
           ret (int_add i 3)
         else ret i) ;;
   r <- highlightKeyword args i "else" ;;
   let i := if r : bool then int_add i 2 else i in
   _ <- highlightKeyword args i "finally" ;;
   ret tt)%go.

(** The case [*parse.Form] of [highlight]. *)
Definition highlightForm (f : parse.Form.t) : M (list styling) unit :=
  (range (parse.Form.Assignments f) (fun an =>
     match parse.Assignment.Left an with
     | Some l =>
         match parse.Indexing.Head l with
         | Some v => styleVariable (Some v)
         | None => ret tt
         end
     | None => ret tt
     end) ;;;
   range (parse.Form.Vars f) (fun cn =>
     match parse.Compound.Indexings cn with
     | ix :: _ =>
         match parse.Indexing.Head ix with
         | Some v => styleVariable (Some v)
         | None => ret tt
         end
     | [] => ret tt
     end) ;;;
   match parse.Form.Head f with
   | Some h => formHead h
   | None => ret tt
   end ;;;
   match parse.Form.Head f with
   | Some h =>
       (* Special forms *)
       if (parse.SourceText (parse.Compound.info h) =? "for")%string
       then highlightFor (parse.Form.Args f)
       else if (parse.SourceText (parse.Compound.info h) =? "try")%string
       then highlightTry (parse.Form.Args f)
       else ret tt
   | None => ret tt
   end)%go.

(** The type switch of [highlight]. *)
Definition highlightKind (k : parse.kind) : M (list styling) unit :=
  match k with
  | parse.IsForm f => highlightForm f
  | parse.IsPrimary p =>
      addStylingAt (parse.Primary.info p)
        (styles_String H (styleForPrimaryType H (parse.Primary.Type_ p)))
  | parse.IsSep s =>
      let septext := parse.SourceText s in
      if HasPrefix septext "#"
      then addStylingAt s (styles_String H (styleForComment H))
      else addStylingAt s (styleForSep H septext)
  | parse.IsOther => ret tt
  end.

(** [s.highlight(n)]; the inner loop is [for _, child := range
    n.Children()]. *)
Fixpoint highlight (nd : parse.Node) : M (list styling) unit :=
  match nd with
  | parse.mkNode k children =>
      (highlightKind k ;;;
       (fix each (cs : list parse.Node) : M (list styling) unit :=
          match cs with
          | [] => ret tt
          | child :: cs' => highlight child ;;; each cs'
          end) children)%go
  end.

End Highlighter.

(** The [Primary] nodes and the [Sep] nodes of a tree, the node itself
    first. *)
Fixpoint primaries (nd : parse.Node) : list parse.Primary.t :=
  match nd with
  | parse.mkNode k children =>
      match k with parse.IsPrimary p => [p] | _ => [] end
      ++ flat_map primaries children
  end.

Fixpoint separators (nd : parse.Node) : list parse.node :=
  match nd with
  | parse.mkNode k children =>
      match k with parse.IsSep s => [s] | _ => [] end
      ++ flat_map separators children
  end.

(** *** Good form heads *)

(** What [goodFormHead] asks of the packages [eval] and [util], of the
    file system and of the editor.  A map from names to values that are
    only tested against nil is a map to [bool]. *)
Record HeadEnv : Type := mkHeadEnv {
  BuiltinSpecialNames : list string;            (* eval.BuiltinSpecialNames *)
  DontSearch : string -> bool;                  (* util.DontSearch *)
  IsExecutable : string -> bool;                (* util.IsExecutable *)
  Stat : string -> option bool;                 (* os.Stat: IsDir(), or an error *)
  ParseVariable : string -> bool * string * string; (* explode, ns, name *)
  FnPrefix : string;                            (* eval.FnPrefix *)
  Builtin : string -> bool;                     (* eval.Builtin()[k] != nil *)
  Global : string -> bool;                      (* ed.evaler.Global[k] != nil *)
  Modules : string -> option (string -> bool);  (* ed.evaler.Modules[ns] *)
  isExternal : string -> bool                   (* ed.isExternal[k] *)
}.

Section GoodFormHead.

Variable E : HeadEnv.

(** A [map[string]bool] as the list of its assignments, latest first; a key
    never assigned reads false. *)
Definition lookupBool (m : list (string * bool)) (k : string) : bool :=
  match lookup String.eqb m k with
  | Some v => v
  | None => false
  end.

(** [isBuiltinSpecial] after its [init]: empty, then [true] assigned at
    each name of [eval.BuiltinSpecialNames] in turn. *)
Definition isBuiltinSpecial : list (string * bool) :=
  fold_left (fun m name => (name, true) :: m) (BuiltinSpecialNames E) [].

(** [isDir(fname)] *)
Definition isDir (fname : string) : bool :=
  match Stat E fname with
  | Some d => d
  | None => false
  end.

(** [goodFormHead(head, ed)] *)
Definition goodFormHead (head : string) : bool :=
  if lookupBool isBuiltinSpecial head then true
  else if DontSearch E head then
    (* XXX don't stat twice *)
    IsExecutable E head || isDir head
  else
    let '(explode, ns, name) := ParseVariable E head in
    if negb explode &&
       (if (ns =? "")%string then
          Builtin E (FnPrefix E ++ name)%string || Global E (FnPrefix E ++ name)%string
        else if (ns =? "e")%string then
          isExternal E name
        else
          match Modules E ns with
          | Some m => m (FnPrefix E ++ name)%string
          | None => false
          end)
    then true
    else isExternal E head.

End GoodFormHead.

(* ================================================================== *)
(** ** The other renderers (renderer.go)                                *)
(* ================================================================== *)

(** [styled]: a text with its styles. *)
Module styled.
Record t : Type := mk { text : string; styles : list string }.
End styled.

(** [cmdlineRenderer] *)
Module cmdlineRenderer.
Record t (Styling : Type) : Type := mk {
  prompt : list styled.t;
  line : string;
  styling : Styling;
  dot : Z;
  rprompt : list styled.t;
  hasComp : bool;
  compBegin : Z;
  compEnd : Z;
  compText : string;
  hasHist : bool;
  histBegin : Z;
  histText : string
}.
Arguments mk {Styling}.
Arguments prompt {Styling}.
Arguments line {Styling}.
Arguments styling {Styling}.
Arguments dot {Styling}.
Arguments rprompt {Styling}.
Arguments hasComp {Styling}.
Arguments compBegin {Styling}.
Arguments compEnd {Styling}.
Arguments compText {Styling}.
Arguments hasHist {Styling}.
Arguments histBegin {Styling}.
Arguments histText {Styling}.
End cmdlineRenderer.

(** What these renderers do to the buffer, in the order done. *)
Inductive bufferCall : Type :=
| DoWrites (text style : string)            (* b.writes(text, style) *)
| DoWrite (r : Z) (style : string)          (* b.write(r, style) *)
| DoWriteStyleds (l : list styled.t)        (* b.writeStyleds(l) *)
| DoWritePadding (w : Z) (style : string)   (* b.writePadding(w, style) *)
| DoNewline                                 (* b.newline() *)
| SetDot                                    (* b.dot = b.cursor() *)
| SetIndent                                 (* b.indent = b.col *)
| SetNewlineWhenFull (v : bool).            (* b.newlineWhenFull = v *)

Definition int_mul (a b : Z) : Z := wrap (a * b).

Section MoreRenderers.

(** The buffer, its positions, the styling of the line and the applier
    that walks it. *)
Context {buffer Pos Styling Applier : Type}.

(** What renderer.go uses of buffer.go, styling.go and the packages [util]
    and [utf8].  [runes] gives the runes that [range] yields over a
    string, in order. *)
Record ScreenOps : Type := mkScreenOps {
  s_width : buffer -> Z;                      (* b.width *)
  s_col : buffer -> Z;                        (* b.col *)
  s_line : buffer -> Z;                       (* b.line() *)
  s_cursor : buffer -> Pos;                   (* b.cursor() *)
  s_set_dot : Pos -> buffer -> buffer;
  s_set_indent : Z -> buffer -> buffer;
  s_set_newlineWhenFull : bool -> buffer -> buffer;
  s_writes : string -> string -> buffer -> buffer;
  s_write : Z -> string -> buffer -> buffer;
  s_writeStyleds : list styled.t -> buffer -> buffer;
  s_writePadding : Z -> string -> buffer -> buffer;
  s_newline : buffer -> buffer;
  s_apply : Styling -> Applier;               (* styling.apply() *)
  s_at : Z -> Applier -> Applier;             (* applier.at(i) *)
  s_get : Applier -> string;                  (* applier.get() *)
  runes : string -> list Z;
  RuneLen : Z -> Z;                           (* utf8.RuneLen *)
  Wcswidth : string -> Z;                     (* util.Wcswidth *)
  ForceWcwidth : string -> Z -> string;       (* util.ForceWcwidth *)
  Join : list string -> string -> string;     (* strings.Join *)
  styles_to_String : list string -> string;   (* styles.String() *)
  styleForCompleted : list string;
  styleForCompletedHistory : list string
}.

Variable O : ScreenOps.

(** A render runs on the buffer and on the record of what was done. *)
Definition screen : Type := (buffer * list bufferCall)%type.

Definition on_buffer (f : buffer -> buffer) (c : bufferCall) : M screen unit :=
  modify (fun s : screen => (f (fst s), snd s ++ [c])).

Definition writes_ (text style : string) : M screen unit :=
  on_buffer (s_writes O text style) (DoWrites text style).
Definition write_ (r : Z) (style : string) : M screen unit :=
  on_buffer (s_write O r style) (DoWrite r style).
Definition writeStyleds_ (l : list styled.t) : M screen unit :=
  on_buffer (s_writeStyleds O l) (DoWriteStyleds l).
Definition writePadding_ (w : Z) (style : string) : M screen unit :=
  on_buffer (s_writePadding O w style) (DoWritePadding w style).
Definition set_dot_to_cursor : M screen unit :=
  modify (fun s : screen =>
    (s_set_dot O (s_cursor O (fst s)) (fst s), snd s ++ [SetDot])).
Definition set_indent_to_col : M screen unit :=
  modify (fun s : screen =>
    (s_set_indent O (s_col O (fst s)) (fst s), snd s ++ [SetIndent])).
Definition set_newlineWhenFull (v : bool) : M screen unit :=
  on_buffer (s_set_newlineWhenFull O v) (SetNewlineWhenFull v).

(** [linesRenderer] *)
Record linesRenderer : Type := mkLinesRenderer {
  lines : list string;
  style : string
}.

(** [nr.render(b)] for a [linesRenderer] *)
Definition linesRenderer_render (nr : linesRenderer) : M screen unit :=
  writes_ (Join O (lines nr) (String "010" "")) "".



(** The closure [nowAt] of [cmdlineRenderer.render]; the applier is handed
    back as [at] has left it. *)
Definition nowAt (clr : cmdlineRenderer.t Styling) (i : Z) (applier : Applier)
  : M screen Applier :=
  (let applier := s_at O i applier in
   (if cmdlineRenderer.hasComp clr && (i =? cmdlineRenderer.compBegin clr)
    then writes_ (cmdlineRenderer.compText clr)
           (styles_to_String O (styleForCompleted O))
    else ret tt) ;;;
   (if i =? cmdlineRenderer.dot clr then set_dot_to_cursor else ret tt) ;;;
   ret applier)%go.

(** The loop [for _, r := range clr.line]; [i] is the number of bytes
    written so far. *)
Fixpoint cmdlineLoop (clr : cmdlineRenderer.t Styling) (rs : list Z) (i : Z)
    (applier : Applier) : M screen unit :=
  match rs with
  | [] => ret tt
  | r :: rs' =>
      ((if cmdlineRenderer.hasComp clr &&
           (cmdlineRenderer.compBegin clr <=? i) &&
           (i <? cmdlineRenderer.compEnd clr)
        then ret tt   (* replaced by the completion candidate *)
        else write_ r (s_get O applier)) ;;;
       let i := int_add i (RuneLen O r) in
       applier <- nowAt clr i applier ;;
       if cmdlineRenderer.hasHist clr && (i =? cmdlineRenderer.histBegin clr)
       then ret tt    (* break *)
       else cmdlineLoop clr rs' i applier)%go
  end.

(** The loop [for _, s := range clr.rprompt { padding -= ... }]. *)
Definition rpromptPadding (padding : Z) (rp : list styled.t) : Z :=
  fold_left (fun pad s => int_sub pad (Wcswidth O (styled.text s))) rp padding.

(** [clr.render(b)] for a [cmdlineRenderer] *)
Definition cmdlineRenderer_render (clr : cmdlineRenderer.t Styling)
  : M screen unit :=
  (set_newlineWhenFull true ;;;
   writeStyleds_ (cmdlineRenderer.prompt clr) ;;;
   s <- get ;;
   (if (s_line O (fst s) =? 0) &&
       (int_mul (s_col O (fst s)) 2 <? s_width O (fst s))
    then set_indent_to_col else ret tt) ;;;
   let applier := s_apply O (cmdlineRenderer.styling clr) in
   applier <- nowAt clr 0 applier ;;
   cmdlineLoop clr (runes O (cmdlineRenderer.line clr)) 0 applier ;;;
   (if cmdlineRenderer.hasHist clr then
      writes_ (cmdlineRenderer.histText clr)
        (styles_to_String O (styleForCompletedHistory O)) ;;;
      set_dot_to_cursor
    else ret tt) ;;;
   (* Write rprompt *)
   (if 0 <? len_slice (cmdlineRenderer.rprompt clr) then
      s <- get ;;
      let padding :=
        rpromptPadding (int_sub (s_width O (fst s)) (s_col O (fst s)))
          (cmdlineRenderer.rprompt clr) in
      if 1 <=? padding then
        set_newlineWhenFull false ;;;
        writePadding_ padding "" ;;;
        writeStyleds_ (cmdlineRenderer.rprompt clr)
      else ret tt
    else ret tt))%go.

End MoreRenderers.

(** The runes written one by one, the number of times the dot was set and
    the number of newlines, in a record of calls. *)
Definition runesWritten (calls : list bufferCall) : list Z :=
  flat_map (fun c => match c with DoWrite r _ => [r] | _ => [] end) calls.

Definition dotSettings (calls : list bufferCall) : nat :=
  List.length (List.filter
    (fun c => match c with SetDot => true | _ => false end) calls).

Definition newlines (calls : list bufferCall) : nat :=
  List.length (List.filter
    (fun c => match c with DoNewline => true | _ => false end) calls).

Definition writesCalls (calls : list bufferCall) : list (string * string) :=
  flat_map (fun c => match c with DoWrites t s => [(t, s)] | _ => [] end) calls.

(** The runes [rs], which start at byte [i], that lie outside the range
    [[b, e)]: those whose first byte does. *)
Fixpoint runesOutside (len_of : Z -> Z) (b e : Z) (i : Z) (rs : list Z)
  : list Z :=
  match rs with
  | [] => []
  | r :: rs' =>
      (if (b <=? i) && (i <? e) then [] else [r])
      ++ runesOutside len_of b e (int_add i (len_of r)) rs'
  end.

(** The byte offsets after each of the runes [rs], which start at [i]. *)
Fixpoint boundariesAfter (len_of : Z -> Z) (i : Z) (rs : list Z) : list Z :=
  match rs with
  | [] => []
  | r :: rs' =>
      int_add i (len_of r) :: boundariesAfter len_of (int_add i (len_of r)) rs'
  end.

(** The styling [highlight] gives a [Primary] node, and a [Sep] node. *)
Definition stylingOfPrimary (H : HighlightEnv) (p : parse.Primary.t) : styling :=
  (parse.Begin (parse.Primary.info p), parse.End_ (parse.Primary.info p),
   styles_String H (styleForPrimaryType H (parse.Primary.Type_ p))).

Definition stylingOfSep (H : HighlightEnv) (s : parse.node) : styling :=
  (parse.Begin s, parse.End_ s,
   if HasPrefix (parse.SourceText s) "#"
   then styles_String H (styleForComment H)
   else styleForSep H (parse.SourceText s)).

(** The styling of the keyword [name] when it is the argument [i]; nothing
    when argument [i] is missing or reads otherwise. *)
Definition keywordAt (H : HighlightEnv) (args : list parse.Compound.t) (i : Z)
    (name : string) : list styling :=
  match index args i with
  | Some a =>
      if (parse.SourceText (parse.Compound.info a) =? name)%string
      then [(parse.Begin (parse.Compound.info a),
             parse.End_ (parse.Compound.info a), styleForSep H name)]
      else []
  | None => []
  end.

(** The variable styling of the first indexing of argument [i]; nothing
    when the argument is missing or has no indexing. *)
Definition variableAt (H : HighlightEnv) (args : list parse.Compound.t) (i : Z)
  : list styling :=
  match index args i with
  | Some a =>
      match parse.Compound.Indexings a with
      | v :: _ =>
          [(parse.Begin (parse.Indexing.info v),
            parse.End_ (parse.Indexing.info v),
            styles_String H (styleForGoodVariable H))]
      | [] => []
      end
  | None => []
  end.

(** The computation [c], when it returns, has only added stylings. *)
Definition grows {A : Type} (c : M (list styling) A) : Prop :=
  forall calls r calls',
    c calls = Ok r calls' -> exists added, calls' = calls ++ added.

(* ================================================================== *)
(** ** More scenarios                                                   *)
(* ================================================================== *)

Module ScriptedMore.

Import Scripted.

(** A builtin that does nothing and returns nil. *)
Definition noop : @leBuiltin unit unit termios world :=
  fun ed k => Ok None ed.

(** A registry with an entry for every name: those of [Scripted.builtins],
    and [noop] for the rest. *)
Definition allBuiltins (name : string)
  : option (@leBuiltin unit unit termios world) :=
  match builtins name with
  | Some f => Some f
  | None => Some noop
  end.

Definition withRegistry
    (reg : string -> option (@leBuiltin unit unit termios world))
    (read : world -> (Key + error) * world)
  : @Externals unit unit termios world :=
  mkExternals (NewTermiosFromFd X) (Copy X) (SetIcanon X) (SetEcho X)
    (SetMin X) (SetTime X) (ApplyToFd X) (FlushInput X) (readCPR X) read
    (Highlight X) (writer_refresh X) (writer_clear_oldBuf X) reg
    (Ctrl X) (Alt X) (Backspace X) (Delete X) (Left X) (Right X) (Up X)
    (Down X) (Enter X) (Tab X) (PageUp X) (PageDown X) (DefaultBinding X).

(** The scripted terminal with the full registry. *)
Definition XAll : @Externals unit unit termios world :=
  withRegistry allBuiltins next_key.

(** A terminal on which every key read fails. *)
Definition XNoKeys : @Externals unit unit termios world :=
  withRegistry builtins (fun w => (inr "read error", w)).

(** The Tab key, bound to a name that [Scripted.builtins] lacks. *)
Definition worldTab : world := mkWorld [inl (mkKey 9 0)] (inl (1, 1)) [].

(** The reply to the cursor-position query cannot be read. *)
Definition worldNoReply : world := mkWorld [key_Enter] (inr "bad CPR") [].

(** Getting the terminal attributes works, setting them fails. *)
Definition worldNoRawMode : world :=
  mkWorld [key_Enter] (inl (1, 1)) [Some "ENOTTY"].

(** Insert mode with the dot beyond the end of the line. *)
Definition editorDotOutside : editor :=
  mkEditor None [] (mkWorld [] (inl (1, 1)) [])
    (mkEditorState [] "" "" "ab" 5 [] modeInsert None 0 None
       (mkHistoryState [] 0 "" "")).

(** Completion of the word "h" in "echo h and more" with the dot at the end
    of the line, or just after the word. *)
Definition editorCompleting (d : Z) : editor :=
  mkEditor None [] (mkWorld [] (inl (1, 1)) [])
    (mkEditorState [] "" "" "echo h and more" d [] modeCompletion
       (Some (mkCompletion [mkCandidate "hello"; mkCandidate "help"] 0 5 6))
       0 None (mkHistoryState [] 0 "" "")).

(** The same with the end of the range beyond the end of the line. *)
Definition editorBadRange : editor :=
  mkEditor None [] (mkWorld [] (inl (1, 1)) [])
    (mkEditorState [] "" "" "echo h" 6 [] modeCompletion
       (Some (mkCompletion [mkCandidate "hello"; mkCandidate "help"] 0 5 9))
       0 None (mkHistoryState [] 0 "" "")).

End ScriptedMore.

Module ScriptedHighlight.

(** Styles written out as SGR parameters joined by semicolons; every
    compound is taken as a simple one naming a good command. *)
Definition env : HighlightEnv :=
  {| styles_String := String.concat ";";
     styleForGoodVariable := ["35"];
     styleForGoodCommand := ["32"];
     styleForBadCommand := ["31"];
     styleForComment := ["36"];
     styleForPrimaryType := fun t => if t =? 0 then [] else ["33"];
     styleForSep := fun s => if (s =? "")%string then "" else "1";
     simpleCompound := fun c =>
       (true, parse.SourceText (parse.Compound.info c), None);
     h_goodFormHead := fun _ => true |}.

Definition word (b e : Z) (text : string) : parse.Compound.t :=
  parse.Compound.mk (parse.mkNodeInfo b e text)
    [parse.Indexing.mk (parse.mkNodeInfo b e text)
       (Some (parse.Primary.mk (parse.mkNodeInfo b e text) 0))].

Definition leaf (b e : Z) (text : string) : parse.Node :=
  parse.mkNode (parse.IsPrimary (parse.Primary.mk (parse.mkNodeInfo b e text) 0)) [].

Definition space (b e : Z) (text : string) : parse.Node :=
  parse.mkNode (parse.IsSep (parse.mkNodeInfo b e text)) [].

(** The form "try {a} finally {b}  # end": the arguments are the three
    words after "try". *)
Definition tryFinally : parse.Node :=
  parse.mkNode
    (parse.IsForm
       (parse.Form.mk [] [] (Some (word 0 3 "try"))
          [word 4 7 "{a}"; word 8 15 "finally"; word 16 19 "{b}"]))
    [leaf 0 3 "try"; space 3 4 " "; leaf 4 7 "{a}"; space 7 8 " ";
     leaf 8 15 "finally"; space 15 16 " "; leaf 16 19 "{b}";
     space 19 26 "# end"].

End ScriptedHighlight.

Module ScriptedScreen.

(** A screen of single-byte characters: the rows written so far, last row
    first in each row's own order, and the position of the dot. *)
Record buffer : Type := mkBuffer {
  b_width : Z;
  b_rows : list (list Z);
  b_dot : Z * Z
}.

Definition add_to_last (cs : list Z) (rows : list (list Z)) : list (list Z) :=
  match rev rows with
  | [] => [cs]
  | l :: before => rev before ++ [l ++ cs]
  end.

Definition bytes (s : string) : list Z :=
  map (fun c => Z.of_N (N_of_ascii c)) (list_ascii_of_string s).

Definition cursor_of (b : buffer) : Z * Z :=
  (len_slice (b_rows b) - 1, len_slice (List.last (b_rows b) [])).

Definition put (cs : list Z) (b : buffer) : buffer :=
  mkBuffer (b_width b) (add_to_last cs (b_rows b)) (b_dot b).

(** The styling is not looked at: every position has the empty style. *)
Definition O : @ScreenOps buffer (Z * Z) unit unit :=
  {| s_width := b_width;
     s_col := fun b => snd (cursor_of b);
     s_line := fun b => fst (cursor_of b);
     s_cursor := cursor_of;
     s_set_dot := fun p b => mkBuffer (b_width b) (b_rows b) p;
     s_set_indent := fun _ b => b;
     s_set_newlineWhenFull := fun _ b => b;
     s_writes := fun text _ b => put (bytes text) b;
     s_write := fun r _ b => put [r] b;
     s_writeStyleds := fun l b =>
       fold_left (fun b0 s => put (bytes (styled.text s)) b0) l b;
     s_writePadding := fun w _ b => put (repeat 32 (Z.to_nat w)) b;
     s_newline := fun b => mkBuffer (b_width b) (b_rows b ++ [[]]) (b_dot b);
     s_apply := fun _ => tt;
     s_at := fun _ a => a;
     s_get := fun _ => "";
     runes := bytes;
     RuneLen := fun _ => 1;
     Wcswidth := fun s => len s;
     ForceWcwidth := fun s w => substring 0 (Z.to_nat w) s;
     Join := fun l sep => String.concat sep l;
     styles_to_String := String.concat ";";
     styleForCompleted := ["4"];
     styleForCompletedHistory := ["4"] |}.

Definition newBuffer (w : Z) : buffer := mkBuffer w [[]] (0, 0).

(** The command line "echo h" after the prompt "> ", with the dot at byte
    [d], and the candidate "hello" shown in place of the bytes 5 to 6 when
    [comp] is set. *)
Definition cmdline (comp : bool) (d : Z) : cmdlineRenderer.t unit :=
  cmdlineRenderer.mk [styled.mk "> " []] "echo h" tt d []
    comp 5 6 "hello" false 0 "".

Definition entries : list styled.t :=
  [styled.mk "hello" ["1"]; styled.mk "help" []; styled.mk "history" []].

End ScriptedScreen.

(** A file system and an evaluator for [goodFormHead]. *)
Module ScriptedHeads.

Definition env : HeadEnv :=
  {| BuiltinSpecialNames := ["del"; "fn"; "use"];
     DontSearch := fun s => HasPrefix s "/" || HasPrefix s "./";
     IsExecutable := fun s => (s =? "/bin/ls")%string;
     Stat := fun s => if (s =? "/tmp")%string then Some true
                      else if (s =? "/bin/ls")%string then Some false
                      else None;
     ParseVariable := fun s => (false, "", s);
     FnPrefix := "fn-";
     Builtin := fun k => (k =? "fn-put")%string;
     Global := fun _ => false;
     Modules := fun _ => None;
     isExternal := fun k => (k =? "git")%string |}.

End ScriptedHeads.

(* ================================================================== *)
(** ** Facts about the Go primitives                                    *)
(* ================================================================== *)

Lemma wrap_id (z : Z) : is_int z -> wrap z = z.
Proof.
  unfold is_int, min_int, max_int, wrap. intros H.
  rewrite Z.mod_small; lia.
Qed.

(** Wrapping an operand first does not change a wrapped sum or
    difference. *)
Lemma wrap_add_r (a b : Z) : wrap (a + wrap b) = wrap (a + b).
Proof.
  unfold wrap.
  replace (a + ((b + 2 ^ 63) mod 2 ^ 64 - 2 ^ 63) + 2 ^ 63)
    with (a + (b + 2 ^ 63) mod 2 ^ 64) by lia.
  rewrite Zplus_mod_idemp_r. do 2 f_equal. lia.
Qed.

Lemma wrap_sub_r (a b : Z) : wrap (a - wrap b) = wrap (a - b).
Proof.
  unfold wrap.
  replace (a - ((b + 2 ^ 63) mod 2 ^ 64 - 2 ^ 63) + 2 ^ 63)
    with (a + 2 ^ 64 - (b + 2 ^ 63) mod 2 ^ 64) by lia.
  rewrite Zminus_mod_idemp_r. do 2 f_equal. lia.
Qed.

(** [a + (b - (c - d))] on [int]s is the wrapped [a + b - (c - d)]. *)
Lemma int_add_sub_sub (a b c d : Z) :
  int_add a (int_sub b (int_sub c d)) = wrap (a + b - (c - d)).
Proof.
  unfold int_add, int_sub.
  rewrite wrap_add_r, Z.add_sub_assoc, wrap_sub_r. reflexivity.
Qed.

Lemma int_add_exact (a b : Z) : is_int (a + b) -> int_add a b = a + b.
Proof. apply wrap_id. Qed.

Lemma int_sub_exact (a b : Z) : is_int (a - b) -> int_sub a b = a - b.
Proof. apply wrap_id. Qed.

Lemma index_Some_range {A} (l : list A) (i : Z) (a : A) :
  index l i = Some a -> 0 <= i < len_slice l.
Proof.
  unfold index. destruct (0 <=? i) eqn:H0; destruct (i <? len_slice l) eqn:H1;
    simpl; try discriminate. lia.
Qed.

Lemma index_in_range {A} (l : list A) (i : Z) :
  0 <= i < len_slice l -> exists a, index l i = Some a.
Proof.
  intros H. unfold index.
  replace (0 <=? i) with true by (symmetry; apply Z.leb_le; lia).
  replace (i <? len_slice l) with true by (symmetry; apply Z.ltb_lt; lia).
  simpl. destruct (nth_error l (Z.to_nat i)) eqn:E; eauto.
  apply nth_error_None in E. unfold len_slice in H. lia.
Qed.

Lemma substring_0_plus (s : string) :
  forall a c : nat,
    substring 0 (a + c) s = (substring 0 a s ++ substring a c s)%string.
Proof.
  induction s as [|ch s IH]; intros a c.
  - destruct a, c; reflexivity.
  - destruct a as [|a].
    + reflexivity.
    + simpl. rewrite IH. reflexivity.
Qed.

Lemma substring_0_all (s : string) : substring 0 (String.length s) s = s.
Proof. induction s; simpl; congruence. Qed.

Lemma length_substring (s : string) :
  forall n m : nat,
    (n + m <= String.length s)%nat -> String.length (substring n m s) = m.
Proof.
  induction s as [|ch s IH]; intros n m H; simpl in H.
  - assert (n = 0%nat) by lia. assert (m = 0%nat) by lia. subst. reflexivity.
  - destruct n as [|n].
    + destruct m as [|m]; [reflexivity|]. simpl. rewrite (IH 0%nat m); [reflexivity | lia].
    + simpl. apply IH. lia.
Qed.

Lemma length_append (s t : string) :
  String.length (s ++ t)%string = (String.length s + String.length t)%nat.
Proof. induction s; simpl; congruence. Qed.

Lemma substring_0_append (p r : string) :
  substring 0 (String.length p) (p ++ r)%string = p.
Proof.
  induction p as [|c p IH]; simpl.
  - destruct r; reflexivity.
  - rewrite IH. reflexivity.
Qed.

(** [strings.HasPrefix(s, p)] holds exactly when [s] is [p] followed by
    something. *)
Lemma HasPrefix_iff (s p : string) :
  HasPrefix s p = true <-> exists r, s = (p ++ r)%string.
Proof.
  unfold HasPrefix, len. split.
  - intros H. apply andb_true_iff in H. destruct H as [Hl He].
    apply Z.leb_le in Hl. apply String.eqb_eq in He.
    exists (substring (String.length p) (String.length s - String.length p) s).
    rewrite <- He at 1. rewrite <- substring_0_plus.
    replace (String.length p + (String.length s - String.length p))%nat
      with (String.length s) by lia.
    symmetry. apply substring_0_all.
  - intros [r ->]. apply andb_true_iff. split.
    + apply Z.leb_le. rewrite length_append. lia.
    + apply String.eqb_eq. apply substring_0_append.
Qed.

(* ================================================================== *)
(** ** History walks                                                    *)
(* ================================================================== *)

Section HistoryFacts.

Lemma startsWithPrefix_set_current (hs : historyState) (i j : Z) :
  startsWithPrefix (set_current hs i) j = startsWithPrefix hs j.
Proof. reflexivity. Qed.

Lemma set_current_same (hs : historyState) : set_current hs (current hs) = hs.
Proof. destruct hs; reflexivity. Qed.

Lemma set_current_twice (hs : historyState) (i j : Z) :
  set_current (set_current hs i) j = set_current hs j.
Proof. reflexivity. Qed.

(** The downward scan from [i]: it stops at the first index, going down,
    whose entry starts with the prefix, or falls off below 0. *)
Lemma prev_loop_scan (hs : historyState) :
  len_slice (items hs) < max_int ->
  forall (fuel : nat) (i : Z),
    -1 <= i < len_slice (items hs) ->
    (Z.to_nat (i + 1) < fuel)%nat ->
    (exists k, 0 <= k <= i /\ startsWithPrefix hs k = true /\
               (forall j, k < j <= i -> startsWithPrefix hs j = false) /\
               prev_loop fuel i hs = Some (Ok true (set_current hs k)))
    \/ ((forall j, 0 <= j <= i -> startsWithPrefix hs j = false) /\
        prev_loop fuel i hs = Some (Ok false hs)).
Proof.
  intros Hlen. induction fuel as [|fuel IH]; intros i Hi Hf; [lia|].
  simpl. destruct (0 <=? i) eqn:H0.
  - apply Z.leb_le in H0.
    destruct (index_in_range (items hs) i) as [s Hs]; [lia|].
    rewrite Hs. destruct (HasPrefix s (prefix hs)) eqn:Hp.
    + left. exists i. repeat split; try lia.
      unfold startsWithPrefix. rewrite Hs. exact Hp.
    + rewrite int_sub_exact by (unfold is_int, min_int, max_int in *; lia).
      destruct (IH (i - 1)) as [[k [Hk [Hm [Hn He]]]] | [Hn He]]; try lia.
      * left. exists k. repeat split; try lia; auto.
        intros j Hj. destruct (Z.eq_dec j i) as [-> | Hne].
        -- unfold startsWithPrefix. rewrite Hs. exact Hp.
        -- apply Hn. lia.
      * right. split; auto.
        intros j Hj. destruct (Z.eq_dec j i) as [-> | Hne].
        -- unfold startsWithPrefix. rewrite Hs. exact Hp.
        -- apply Hn. lia.
  - apply Z.leb_gt in H0. right. split; auto. intros j Hj. lia.
Qed.

(** The upward scan from [i]. *)
Lemma next_loop_scan (hs : historyState) :
  len_slice (items hs) < max_int ->
  forall (fuel : nat) (i : Z),
    0 <= i <= len_slice (items hs) ->
    (Z.to_nat (len_slice (items hs) - i) < fuel)%nat ->
    (exists k, i <= k < len_slice (items hs) /\ startsWithPrefix hs k = true /\
               (forall j, i <= j < k -> startsWithPrefix hs j = false) /\
               next_loop fuel i hs = Some (Ok true (set_current hs k)))
    \/ ((forall j, i <= j -> startsWithPrefix hs j = false) /\
        next_loop fuel i hs = Some (Ok false hs)).
Proof.
  intros Hlen. induction fuel as [|fuel IH]; intros i Hi Hf; [lia|].
  simpl. destruct (i <? len_slice (items hs)) eqn:H0.
  - apply Z.ltb_lt in H0.
    destruct (index_in_range (items hs) i) as [s Hs]; [lia|].
    rewrite Hs. destruct (HasPrefix s (prefix hs)) eqn:Hp.
    + left. exists i. repeat split; try lia.
      unfold startsWithPrefix. rewrite Hs. exact Hp.
    + rewrite int_add_exact by (unfold is_int, min_int, max_int in *; lia).
      destruct (IH (i + 1)) as [[k [Hk [Hm [Hn He]]]] | [Hn He]]; try lia.
      * left. exists k. repeat split; try lia; auto.
        intros j Hj. destruct (Z.eq_dec j i) as [-> | Hne].
        -- unfold startsWithPrefix. rewrite Hs. exact Hp.
        -- apply Hn. lia.
      * right. split; auto.
        intros j Hj. destruct (Z.eq_dec j i) as [-> | Hne].
        -- unfold startsWithPrefix. rewrite Hs. exact Hp.
        -- apply Hn. lia.
  - apply Z.ltb_ge in H0. right. split; auto. intros j Hj.
    unfold startsWithPrefix.
    destruct (index (items hs) j) eqn:E; [|reflexivity].
    apply index_Some_range in E. lia.
Qed.

(** [prev] on a state in range: the largest matching index below
    [current], or [false] and no change. *)
Lemma prev_spec (hs : historyState) :
  historyInRange hs ->
  (exists k, 0 <= k < current hs /\ startsWithPrefix hs k = true /\
             (forall j, k < j < current hs -> startsWithPrefix hs j = false) /\
             prev hs = Some (Ok true (set_current hs k)))
  \/ ((forall j, 0 <= j < current hs -> startsWithPrefix hs j = false) /\
      prev hs = Some (Ok false hs)).
Proof.
  intros [Hc Hl]. unfold prev.
  rewrite int_sub_exact by (unfold is_int, min_int, max_int in *; lia).
  destruct (Z.eq_dec (current hs) (-1)) as [E | E].
  - right. split; [intros; lia|]. rewrite E. reflexivity.
  - destruct (prev_loop_scan hs Hl (history_fuel hs) (current hs - 1))
      as [[k [Hk [Hm [Hn He]]]] | [Hn He]].
    + lia.
    + unfold history_fuel, len_slice in *. lia.
    + left. exists k. repeat split; try lia; auto. intros j Hj. apply Hn. lia.
    + right. split; auto. intros j Hj. apply Hn. lia.
Qed.

(** [next] on a state in range: the smallest matching index above
    [current], or [false] and no change. *)
Lemma next_spec (hs : historyState) :
  historyInRange hs ->
  (exists k, current hs < k < len_slice (items hs) /\
             startsWithPrefix hs k = true /\
             (forall j, current hs < j < k -> startsWithPrefix hs j = false) /\
             next hs = Some (Ok true (set_current hs k)))
  \/ ((forall j, current hs < j -> startsWithPrefix hs j = false) /\
      next hs = Some (Ok false hs)).
Proof.
  intros [Hc Hl]. unfold next.
  rewrite int_add_exact by (unfold is_int, min_int, max_int in *; lia).
  destruct (Z.eq_dec (current hs) (len_slice (items hs))) as [E | E].
  - right. split.
    + intros j Hj. unfold startsWithPrefix.
      destruct (index (items hs) j) eqn:Ej; [|reflexivity].
      apply index_Some_range in Ej. lia.
    + unfold history_fuel. simpl.
      replace (current hs + 1 <? len_slice (items hs)) with false
        by (symmetry; apply Z.ltb_ge; lia).
      reflexivity.
  - destruct (next_loop_scan hs Hl (history_fuel hs) (current hs + 1))
      as [[k [Hk [Hm [Hn He]]]] | [Hn He]].
    + lia.
    + unfold history_fuel, len_slice in *. lia.
    + left. exists k. repeat split; try lia; auto. intros j Hj. apply Hn. lia.
    + right. split; auto. intros j Hj. apply Hn. lia.
Qed.

End HistoryFacts.

(** C4 (as amended).  For a history state whose [current] lies between -1
    and [len(items)]: [prev] sets [current] to the largest index below it
    whose entry starts with [prefix] and returns true, or returns false and
    changes nothing when there is none; [next] does the same with the
    smallest such index above [current]; and after a successful [prev] from
    an origin that is itself an index whose entry starts with [prefix],
    [next] gives back the state of the origin. *)
Theorem history_prev_next_walk (hs : historyState) :
  historyInRange hs ->
  ((exists k, 0 <= k < current hs /\ startsWithPrefix hs k = true /\
              (forall j, k < j < current hs -> startsWithPrefix hs j = false) /\
              prev hs = Some (Ok true (set_current hs k)))
   \/ ((forall j, 0 <= j < current hs -> startsWithPrefix hs j = false) /\
       prev hs = Some (Ok false hs)))
  /\
  ((exists k, current hs < k < len_slice (items hs) /\
              startsWithPrefix hs k = true /\
              (forall j, current hs < j < k -> startsWithPrefix hs j = false) /\
              next hs = Some (Ok true (set_current hs k)))
   \/ ((forall j, current hs < j -> startsWithPrefix hs j = false) /\
       next hs = Some (Ok false hs)))
  /\
  (forall hs', prev hs = Some (Ok true hs') ->
               startsWithPrefix hs (current hs) = true ->
               next hs' = Some (Ok true hs)).
Proof.
  intros Hr. split; [apply prev_spec; exact Hr|].
  split; [apply next_spec; exact Hr|].
  intros hs' Hp Ho.
  destruct (prev_spec hs Hr) as [[k [Hk [Hm [Hn He]]]] | [Hn He]];
    rewrite He in Hp; [|discriminate].
  injection Hp as <-.
  assert (Hr' : historyInRange (set_current hs k)).
  { destruct Hr as [Hc Hl]. split; simpl; [lia | exact Hl]. }
  destruct (next_spec _ Hr') as [[k' [Hk' [Hm' [Hn' He']]]] | [Hn' He']];
    simpl in *.
  - assert (k' = current hs) as ->.
    { destruct (Z.lt_trichotomy k' (current hs)) as [Hlt | [Heq | Hgt]].
      - rewrite startsWithPrefix_set_current in Hm'.
        rewrite Hn in Hm' by lia. discriminate.
      - exact Heq.
      - specialize (Hn' (current hs)).
        rewrite startsWithPrefix_set_current in Hn'.
        rewrite Hn' in Ho by lia. discriminate. }
    rewrite He', set_current_twice, set_current_same. reflexivity.
  - specialize (Hn' (current hs)).
    rewrite startsWithPrefix_set_current in Hn'.
    rewrite Hn' in Ho by lia. discriminate.
Qed.

Lemma history_prev_next_walk_witness :
  historyInRange (set_current Scripted.scenarioS5 2) /\
  (forall hs', prev (set_current Scripted.scenarioS5 2) = Some (Ok true hs') ->
               startsWithPrefix (set_current Scripted.scenarioS5 2) 2 = true ->
               next hs' = Some (Ok true (set_current Scripted.scenarioS5 2))).
Proof.
  assert (H : historyInRange (set_current Scripted.scenarioS5 2)).
  { unfold historyInRange. vm_compute. intuition discriminate. }
  split; [exact H|].
  exact (proj2 (proj2 (history_prev_next_walk _ H))).
Defined.

(** Beyond [len(items)] the first step of [prev] indexes out of range. *)
Lemma prev_panics_beyond_items :
  prev (set_current Scripted.scenarioS5 5) =
  Some (Panic "index out of range" (set_current Scripted.scenarioS5 5)).
Proof. reflexivity. Qed.

(** Below -1 the first step of [next] indexes out of range. *)
Lemma next_panics_below_items :
  next (set_current Scripted.scenarioS5 (-3)) =
  Some (Panic "index out of range" (set_current Scripted.scenarioS5 (-3))).
Proof. reflexivity. Qed.

(** C4 as first stated fails on scenario S5: from the origin 3, where
    nothing is selected, [prev] moves to 2 and [next] then finds nothing and
    leaves [current] at 2. *)
Lemma history_next_does_not_return_to_origin :
  exists hs',
    prev Scripted.scenarioS5 = Some (Ok true hs') /\
    next hs' = Some (Ok false hs') /\
    current hs' <> current Scripted.scenarioS5.
Proof.
  exists (set_current Scripted.scenarioS5 2).
  split; [reflexivity|]. split; [reflexivity|]. discriminate.
Qed.

(* ================================================================== *)
(** ** Accepting a completion or a history entry                        *)
(* ================================================================== *)

Lemma string_app_assoc (a b c : string) :
  ((a ++ b) ++ c = a ++ b ++ c)%string.
Proof. induction a; simpl; congruence. Qed.

(** A string is its first [b] bytes, the bytes from [b] to [e], and the
    rest. *)
Lemma substring_three (s : string) (b e : nat) :
  (b <= e <= String.length s)%nat ->
  s = (substring 0 b s ++ substring b (e - b) s
         ++ substring e (String.length s - e) s)%string.
Proof.
  intros H.
  rewrite <- string_app_assoc, <- substring_0_plus.
  replace (b + (e - b))%nat with e by lia.
  rewrite <- substring_0_plus.
  replace (e + (String.length s - e))%nat with (String.length s) by lia.
  symmetry. apply substring_0_all.
Qed.

Lemma slice_to_ok (s : string) (b : Z) :
  0 <= b <= len s -> slice_to s b = Some (substring 0 (Z.to_nat b) s).
Proof.
  intros H. unfold slice_to, slice.
  replace (0 <=? 0) with true by reflexivity.
  replace (0 <=? b) with true by (symmetry; apply Z.leb_le; lia).
  replace (b <=? len s) with true by (symmetry; apply Z.leb_le; lia).
  simpl. rewrite Z.sub_0_r. reflexivity.
Qed.

Lemma slice_from_ok (s : string) (e : Z) :
  0 <= e <= len s ->
  slice_from s e =
  Some (substring (Z.to_nat e) (String.length s - Z.to_nat e) s).
Proof.
  intros H. unfold slice_from, slice.
  replace (0 <=? e) with true by (symmetry; apply Z.leb_le; lia).
  replace (e <=? len s) with true by (symmetry; apply Z.leb_le; lia).
  replace (len s <=? len s) with true by (symmetry; apply Z.leb_le; lia).
  simpl. unfold len. do 3 f_equal. lia.
Qed.

(** Unfolds the state-and-panic monad in the goal. *)
Ltac run_go := unfold bind, get, modify, try, ret, panic; simpl.

Section AcceptFacts.

Context {Item Navigation Termios World : Type}.
Implicit Types ed : @Editor Item Navigation Termios World.

(** With the selected index out of range only the last two statements of
    [acceptCompletion] take effect. *)
Lemma acceptCompletion_no_selection ed (c : completion) :
  completion_ (es ed) = Some c ->
  c_current c < 0 \/ len_slice (candidates c) <= c_current c ->
  acceptCompletion ed =
  Ok tt (with_es (set_mode modeInsert) (with_es (set_completion None) ed)).
Proof.
  intros Hc Hout. unfold acceptCompletion. run_go. rewrite Hc. simpl.
  replace ((0 <=? c_current c) && (c_current c <? len_slice (candidates c)))
    with false; [reflexivity|].
  symmetry. apply andb_false_iff.
  destruct Hout; [left; apply Z.leb_gt | right; apply Z.ltb_ge]; lia.
Qed.

(** With a selected candidate and both ends of the range inside the line,
    [acceptCompletion] returns the editor with all four assignments. *)
Lemma acceptCompletion_selection ed (c : completion)
      (cand : candidate) :
  completion_ (es ed) = Some c ->
  index (candidates c) (c_current c) = Some cand ->
  0 <= start c <= len (line (es ed)) ->
  0 <= end_ c <= len (line (es ed)) ->
  acceptCompletion ed =
  Ok tt
    (with_es (set_mode modeInsert)
      (with_es (set_completion None)
        (with_es (set_dot (int_add (dot (es ed))
                    (int_sub (len (text cand)) (int_sub (end_ c) (start c)))))
          (with_es (set_line
              (substring 0 (Z.to_nat (start c)) (line (es ed))
               ++ text cand
               ++ substring (Z.to_nat (end_ c))
                    (String.length (line (es ed)) - Z.to_nat (end_ c))
                    (line (es ed)))%string) ed)))).
Proof.
  intros Hc Hi Hs He. unfold acceptCompletion. run_go. rewrite Hc. simpl.
  pose proof (index_Some_range _ _ _ Hi) as Hr.
  replace ((0 <=? c_current c) && (c_current c <? len_slice (candidates c)))
    with true
    by (symmetry; apply andb_true_iff; split;
        [apply Z.leb_le | apply Z.ltb_lt]; lia).
  rewrite Hi. simpl.
  rewrite (slice_to_ok _ _ Hs). simpl.
  rewrite (slice_from_ok _ _ He). simpl.
  reflexivity.
Qed.

(** C1.  Accepting the selected candidate, of text [t], over the range
    [[b, e)] with [0 <= b <= e <= len(line)] and the dot at or after [e]:
    the line splits as [pre ++ mid ++ post] at [b] and [e], the new line is
    [pre ++ t ++ post], which is [line[:b] + t + line[e:]], and the new dot
    is [dot + len(t) - (e - b)]: as an [int], and so without wrap-around
    whenever [dot + len(t)] is an [int]. *)
Theorem acceptCompletion_replaces_range ed (c : completion)
        (cand : candidate) :
  completion_ (es ed) = Some c ->
  index (candidates c) (c_current c) = Some cand ->
  0 <= start c <= end_ c ->
  end_ c <= len (line (es ed)) ->
  end_ c <= dot (es ed) ->
  exists ed' pre mid post,
    acceptCompletion ed = Ok tt ed' /\
    line (es ed) = (pre ++ mid ++ post)%string /\
    len pre = start c /\
    len mid = end_ c - start c /\
    line (es ed') = (pre ++ text cand ++ post)%string /\
    dot (es ed') = wrap (dot (es ed) + len (text cand) - (end_ c - start c)) /\
    (dot (es ed) + len (text cand) <= max_int ->
     dot (es ed') = dot (es ed) + len (text cand) - (end_ c - start c)).
Proof.
  intros Hc Hi Hbe He Hdot.
  assert (Hlen : 0 <= len (text cand)) by (unfold len; lia).
  eexists. exists (substring 0 (Z.to_nat (start c)) (line (es ed))).
  exists (substring (Z.to_nat (start c)) (Z.to_nat (end_ c) - Z.to_nat (start c))
            (line (es ed))).
  exists (substring (Z.to_nat (end_ c))
            (String.length (line (es ed)) - Z.to_nat (end_ c)) (line (es ed))).
  split.
  { apply (acceptCompletion_selection ed c cand Hc Hi); lia. }
  unfold len in *. simpl.
  split; [apply substring_three; lia|].
  split; [rewrite length_substring; lia|].
  split; [rewrite length_substring; lia|].
  split; [reflexivity|].
  rewrite int_add_sub_sub.
  split; [reflexivity|].
  intros Hfit. apply wrap_id. unfold is_int, min_int, max_int in *. lia.
Qed.


(** C10.  With [current] a valid index of the history, [acceptHistory]
    sets the line to [items[current]] and the dot to the byte length of
    that line. *)
Theorem acceptHistory_sets_line_and_dot ed :
  0 <= current (history (es ed)) < len_slice (items (history (es ed))) ->
  exists ed',
    acceptHistory ed = Ok tt ed' /\
    index (items (history (es ed))) (current (history (es ed)))
      = Some (line (es ed')) /\
    dot (es ed') = len (line (es ed')).
Proof.
  intros H. destruct (index_in_range _ _ H) as [s Hs].
  unfold acceptHistory. run_go. rewrite Hs. simpl.
  eexists. split; [reflexivity|]. simpl. auto.
Qed.

End AcceptFacts.

Lemma acceptCompletion_replaces_range_witness :
  exists ed' pre mid post,
    acceptCompletion (Scripted.scenarioS6 0) = Ok tt ed' /\
    "echo h" = (pre ++ mid ++ post)%string /\
    len pre = 5 /\
    len mid = 6 - 5 /\
    line (es ed') = (pre ++ "hello" ++ post)%string /\
    dot (es ed') = wrap (6 + len "hello" - (6 - 5)) /\
    (6 + len "hello" <= max_int -> dot (es ed') = 6 + len "hello" - (6 - 5)).
Proof.
  apply (acceptCompletion_replaces_range (Scripted.scenarioS6 0)
           (mkCompletion [mkCandidate "hello"; mkCandidate "help"] 0 5 6)
           (mkCandidate "hello")).
  - reflexivity.
  - reflexivity.
  - simpl. lia.
  - vm_compute. discriminate.
  - simpl. lia.
Defined.


Lemma acceptHistory_sets_line_and_dot_witness :
  exists ed',
    acceptHistory (Scripted.scenarioHistory 2) = Ok tt ed' /\
    index ["git status"; "gcc main.c"; "grep foo"] 2 = Some (line (es ed')) /\
    dot (es ed') = len (line (es ed')).
Proof.
  apply (acceptHistory_sets_line_and_dot (Scripted.scenarioHistory 2)).
  vm_compute. intuition discriminate.
Defined.

(* ================================================================== *)
(** ** What a computation leaves alone                                  *)
(* ================================================================== *)

Section Keeps.

Context {S T : Type}.
Variable h : S -> T.

Lemma keeps_ret {A} (a : A) : keeps h (ret a).
Proof. intros s a' s' H. injection H as _ <-. reflexivity. Qed.

Lemma keeps_get : keeps h get.
Proof. intros s a' s' H. injection H as _ <-. reflexivity. Qed.

Lemma keeps_panic {A} (msg : string) : keeps h (@panic S A msg).
Proof. intros s a s' H. discriminate. Qed.

Lemma keeps_try {A} (o : option A) (msg : string) : keeps h (try o msg).
Proof. destruct o; [apply keeps_ret | apply keeps_panic]. Qed.

Lemma keeps_modify (f : S -> S) :
  (forall s, h (f s) = h s) -> keeps h (modify f).
Proof. intros Hf s a s' H. injection H as _ <-. apply Hf. Qed.

Lemma keeps_bind {A B} (c : M S A) (k : A -> M S B) :
  keeps h c -> (forall a, keeps h (k a)) -> keeps h (bind c k).
Proof.
  intros Hc Hk s b s' H. unfold bind in H.
  destruct (c s) as [a s1 | msg s1] eqn:E; [|discriminate].
  rewrite (Hk a s1 b s' H). apply (Hc s a s1 E).
Qed.

End Keeps.

(** Goes through a computation statement by statement. *)
Ltac keeps_steps :=
  repeat first
    [ apply keeps_ret | apply keeps_get | apply keeps_panic | apply keeps_try
    | apply keeps_modify; intros; reflexivity
    | apply keeps_bind; [|intros]
    | match goal with
      | |- keeps _ (match ?x with _ => _ end) => destruct x
      | |- keeps _ (if ?x then _ else _) => destruct x
      | |- keeps _ (let '(_, _) := ?x in _) => destruct x
      end ].

Section SessionFacts.

Context {Item Navigation Termios World : Type}.
Variable X : @Externals Item Navigation Termios World.
Implicit Types ed : @Editor Item Navigation Termios World.

Section KeepsEditorState.

Context {T : Type}.
Variable h : @Editor Item Navigation Termios World -> T.

(** [h] looks at the editor state only, not at the terminal. *)
Hypothesis h_es : forall ed ed', es ed' = es ed -> h ed' = h ed.

Lemma keeps_call {A} (f : World -> A * World) : keeps h (call f).
Proof.
  intros ed a ed' H. unfold call in H.
  destruct (f (world ed)) as [a' w]. injection H as _ <-.
  apply h_es. reflexivity.
Qed.

Lemma keeps_WriteString (s : string) : keeps h (WriteString s).
Proof. apply keeps_modify. intros ed. apply h_es. reflexivity. Qed.

Lemma keeps_set_savedTermios (t : option Termios) :
  keeps h (modify (set_savedTermios t)).
Proof. apply keeps_modify. intros ed. apply h_es. reflexivity. Qed.

Lemma keeps_SetupTerminal : keeps h (SetupTerminal X).
Proof.
  unfold SetupTerminal.
  repeat first [ apply keeps_call | apply keeps_WriteString | keeps_steps ].
Qed.

Lemma keeps_CleanupTerminal (t : option Termios) :
  keeps h (CleanupTerminal X t).
Proof.
  unfold CleanupTerminal.
  repeat first [ apply keeps_call | apply keeps_WriteString | keeps_steps ].
Qed.

Lemma keeps_startReadLine : keeps h (startReadLine X).
Proof.
  unfold startReadLine.
  repeat first
    [ apply keeps_SetupTerminal | apply keeps_call | apply keeps_WriteString
    | apply keeps_set_savedTermios | keeps_steps ].
Qed.

End KeepsEditorState.

(** *** The history through a session *)

Lemma historyItems_es ed ed' : es ed' = es ed -> historyItems ed' = historyItems ed.
Proof. unfold historyItems. intros ->. reflexivity. Qed.

Ltac keeps_history :=
  repeat first
    [ apply keeps_call; exact historyItems_es
    | apply keeps_WriteString; exact historyItems_es
    | apply keeps_set_savedTermios; exact historyItems_es
    | apply keeps_CleanupTerminal; exact historyItems_es
    | keeps_steps ].

Lemma keeps_history_refresh : keeps (@historyItems Item Navigation Termios World) (refresh X).
Proof. unfold refresh. keeps_history. Qed.

Lemma keeps_history_pushTip (s : string) : keeps (@historyItems Item Navigation Termios World) (pushTip s).
Proof. unfold pushTip. keeps_history. Qed.

Lemma keeps_history_readLineHead (p rp : World -> string * World) :
  keeps (@historyItems Item Navigation Termios World) (readLineHead X p rp).
Proof.
  unfold readLineHead.
  repeat first
    [ apply keeps_history_refresh | apply keeps_history_pushTip | keeps_history ].
Qed.

Lemma historyItems_readLineInit ed :
  historyItems (readLineInit X ed) = historyItems ed.
Proof. reflexivity. Qed.

Lemma lookupKey_history :
  builtinsKeepHistory X ->
  forall (fuel : nat) (k : Key) ed r ed',
    lookupKey X fuel k ed = Some (Ok r ed') ->
    historyItems ed' = historyItems ed.
Proof.
  intros HB. induction fuel as [|fuel IH]; intros k ed r ed' H; [discriminate|].
  cbn [lookupKey] in H.
  destruct (lookup bufferMode_eqb (keyBindings X) (mode (es ed))) as [kb|].
  - destruct (leBuiltins X _) as [f|] eqn:Ef; [|discriminate].
    destruct (f ed k) as [[ret|] ed1 | msg ed1] eqn:Er; [| |discriminate].
    + pose proof (HB _ _ _ _ _ _ Ef Er) as H1.
      destruct (action ret).
      * injection H as _ <-. exact H1.
      * injection H as _ <-. exact H1.
      * apply IH in H. rewrite H. exact H1.
      * injection H as _ <-. exact H1.
    + injection H as _ <-. apply (HB _ _ _ _ _ _ Ef Er).
  - injection H as _ <-. reflexivity.
Qed.

Lemma readLineLoop_history (p rp : World -> string * World) :
  builtinsKeepHistory X ->
  forall (fuel : nat) ed lr ed',
    readLineLoop X p rp fuel ed = Some (Ok lr ed') ->
    historyItems ed' = historyItems ed.
Proof.
  intros HB. induction fuel as [|fuel IH]; intros ed lr ed' H; [discriminate|].
  cbn [readLineLoop] in H.
  destruct (readLineHead X p rp ed) as [[lr1 | [k|]] ed1 | msg ed1] eqn:Eh;
    [| | |discriminate];
    pose proof (keeps_history_readLineHead p rp _ _ _ Eh) as H1.
  - injection H as _ <-. exact H1.
  - destruct (lookupKey X fuel k ed1) as [[[lr2|] ed2 | msg ed2]|] eqn:Ek;
      try discriminate;
      pose proof (lookupKey_history HB _ _ _ _ _ Ek) as H2.
    + injection H as _ <-. congruence.
    + apply IH in H. congruence.
  - apply IH in H. congruence.
Qed.

(** What [finishReadLine_reset] does to the history: it appends the line
    of a result that is neither EOF nor an error; it always returns and
    keeps the saved terminal attributes. *)
Lemma finishReadLine_reset_history (lr : LineRead) ed :
  exists ed',
    finishReadLine_reset X lr ed = Ok tt ed' /\
    savedTermios ed' = savedTermios ed /\
    historyItems ed' =
      if isLine lr then historyItems ed ++ [Line lr] else historyItems ed.
Proof.
  unfold finishReadLine_reset, refresh, isLine. run_go.
  destruct (negb (EOF lr) && match Err lr with None => true | Some _ => false end);
    simpl; unfold call; simpl;
    match goal with
    | |- context [writer_refresh X ?s ?w] =>
        destruct (writer_refresh X s w) as [e w']
    end; simpl; eexists; split; try reflexivity; split; reflexivity.
Qed.

End SessionFacts.

(* ================================================================== *)
(** ** ReadLine                                                         *)
(* ================================================================== *)

Section ReadLineFacts.

Context {Item Navigation Termios World : Type}.
Variable X : @Externals Item Navigation Termios World.
Variables p rp : World -> string * World.
Implicit Types ed : @Editor Item Navigation Termios World.

(** [finishReadLine] returns the result it was given, or the restore
    error when [CleanupTerminal] fails. *)
Lemma finishReadLine_cases (lr : LineRead) ed (r : LineRead) ed' :
  finishReadLine X lr ed = Ok r ed' ->
  exists ed1 ed2 err,
    finishReadLine_reset X lr ed = Ok tt ed1 /\
    CleanupTerminal X (savedTermios ed1) ed1 = Ok err ed2 /\
    ed' = set_savedTermios None ed2 /\
    r = match err with Some e => restoreError e | None => lr end.
Proof.
  intros H. destruct (finishReadLine_reset_history X lr ed) as [ed1 [E1 _]].
  unfold finishReadLine, bind in H. rewrite E1 in H. simpl in H.
  destruct (CleanupTerminal X (savedTermios ed1) ed1) as [err ed2 | msg ed2] eqn:E2;
    [|discriminate].
  exists ed1, ed2, err. repeat split; try assumption.
  - unfold modify, ret in H. injection H as _ <-. reflexivity.
  - unfold modify, ret in H. injection H as <- _. destruct err; reflexivity.
Qed.

(** C8.  When the terminal was set up, the loop returned [lr0], and
    [CleanupTerminal] then fails with [e], ReadLine returns the restore
    error for [e] in place of [lr0], whatever [lr0] is. *)
Theorem restore_error_overrides_result (fuel : nat) ed ed1 (lr0 : LineRead)
        ed2 ed3 (e : error) ed4 :
  startReadLine X ed = Ok None ed1 ->
  readLineLoop X p rp fuel (readLineInit X ed1) = Some (Ok lr0 ed2) ->
  finishReadLine_reset X lr0 ed2 = Ok tt ed3 ->
  CleanupTerminal X (savedTermios ed3) ed3 = Ok (Some e) ed4 ->
  ReadLine X p rp fuel ed =
    Some (Ok (mkLineRead "" false
                (Some (Errorf "can't restore terminal attribute" e)))
             (set_savedTermios None ed4)).
Proof.
  intros Hs Hl Hr Hc. unfold ReadLine. rewrite Hs, Hl.
  unfold finishReadLine, bind. rewrite Hr. simpl. rewrite Hc. reflexivity.
Qed.

(** C2 (as amended).  For a completed ReadLine whose builtins leave the
    history entries alone: when the terminal cannot be set up the history
    is unchanged; otherwise the line is appended, once, exactly when the
    result the loop returned is a line (not EOF, no error), and the final
    result is that of the loop or the restore error put in its place.  So
    a final result that is a line means the line was appended once, and a
    final EOF means the history is unchanged. *)
Theorem ReadLine_appends_line_of_loop_result (fuel : nat) ed
        (lr : LineRead) ed' :
  builtinsKeepHistory X ->
  ReadLine X p rp fuel ed = Some (Ok lr ed') ->
  ((exists err ed1,
       startReadLine X ed = Ok (Some err) ed1 /\
       lr = mkLineRead "" false (Some err) /\
       historyItems ed' = historyItems ed)
   \/
   (exists ed1 lr0 ed2,
       startReadLine X ed = Ok None ed1 /\
       readLineLoop X p rp fuel (readLineInit X ed1) = Some (Ok lr0 ed2) /\
       (lr = lr0 \/ exists e, lr = restoreError e) /\
       historyItems ed' =
         if isLine lr0 then historyItems ed ++ [Line lr0] else historyItems ed))
  /\ (isLine lr = true -> historyItems ed' = historyItems ed ++ [Line lr])
  /\ (EOF lr = true -> historyItems ed' = historyItems ed).
Proof.
  intros HB H.
  assert (Hmain :
    (exists err ed1,
       startReadLine X ed = Ok (Some err) ed1 /\
       lr = mkLineRead "" false (Some err) /\
       historyItems ed' = historyItems ed)
    \/
    (exists ed1 lr0 ed2,
       startReadLine X ed = Ok None ed1 /\
       readLineLoop X p rp fuel (readLineInit X ed1) = Some (Ok lr0 ed2) /\
       (lr = lr0 \/ exists e, lr = restoreError e) /\
       historyItems ed' =
         if isLine lr0 then historyItems ed ++ [Line lr0] else historyItems ed)).
  { unfold ReadLine in H.
    destruct (startReadLine X ed) as [[err|] ed1 | msg ed1] eqn:Es;
      [| |discriminate];
      pose proof (keeps_startReadLine X historyItems historyItems_es _ _ _ Es)
        as H1.
    - left. injection H as <- <-. eauto.
    - right.
      destruct (readLineLoop X p rp fuel (readLineInit X ed1))
        as [[lr0 ed2 | msg ed2]|] eqn:El; [| |discriminate].
      + pose proof (readLineLoop_history X p rp HB _ _ _ _ El) as H2.
        rewrite historyItems_readLineInit in H2.
        injection H as H.
        destruct (finishReadLine_cases _ _ _ _ H) as [ed3 [ed4 [err [E3 [E4 [-> ->]]]]]].
        destruct (finishReadLine_reset_history X lr0 ed2) as [ed3' [E3' [_ H3]]].
        rewrite E3 in E3'. injection E3' as <-.
        pose proof (keeps_CleanupTerminal X historyItems historyItems_es _ _ _ _ E4)
          as H4.
        exists ed1, lr0, ed2. repeat split; try assumption.
        * destruct err; [right; eauto | left; reflexivity].
        * change (historyItems (set_savedTermios None ed4))
            with (historyItems ed4).
          rewrite H4, H3, H2, H1. reflexivity.
      + destruct (finishReadLine X {| Line := ""; EOF := false; Err := None |} ed2);
          discriminate. }
  split; [exact Hmain|].
  destruct Hmain as [[err [ed1 [_ [-> Hh]]]] | [ed1 [lr0 [ed2 [_ [_ [Hlr Hh]]]]]]].
  - split; [discriminate | intros; exact Hh].
  - destruct Hlr as [-> | [e ->]].
    + split.
      * intros Hline. rewrite Hline in Hh. exact Hh.
      * intros Heof. unfold isLine in Hh. rewrite Heof in Hh. exact Hh.
    + split; discriminate.
Qed.

(** What [startReadLine] writes once the terminal is set up and the
    cursor position has come back: the query, and then [LackEOL] exactly
    when the first number of the reply is not 1. *)
Lemma startReadLine_writes (t : Termios) ed ed1 (pos : Z * Z) (w : World) :
  SetupTerminal X ed = Ok (inl t) ed1 ->
  readCPR X (world ed1) = (inl pos, w) ->
  exists ed',
    startReadLine X ed = Ok None ed' /\
    file ed' = file ed1 ++ [(ESC ++ "[6n")%string]
                 ++ (if cpr_row pos =? 1 then [] else [LackEOL]).
Proof.
  intros Hs Hc. unfold startReadLine, bind. rewrite Hs. simpl.
  unfold call. simpl. rewrite Hc. destruct pos as [x y]. simpl.
  destruct (x =? 1); simpl; eexists; split; try reflexivity; simpl;
    rewrite <- ?app_assoc; reflexivity.
Qed.

End ReadLineFacts.

(** *** The scenarios *)

Lemma scripted_builtins_keep_history : builtinsKeepHistory Scripted.X.
Proof.
  intros name f ed k r ed' Hf Hr. simpl in Hf. unfold Scripted.builtins in Hf.
  destruct (name =? "return-line")%string.
  { injection Hf as <-. unfold Scripted.returnLine in Hr.
    injection Hr as _ <-. reflexivity. }
  destruct (name =? "return-eof")%string.
  { injection Hf as <-. unfold Scripted.returnEOF in Hr.
    destruct (len (line (es ed)) =? 0); injection Hr as _ <-; reflexivity. }
  destruct (name =? "default-insert")%string; [|discriminate].
  injection Hf as <-. unfold Scripted.defaultInsert in Hr.
  revert Hr.
  apply (@keeps_bind _ _ historyItems); [apply keeps_try|]. intros l.
  apply keeps_bind; [apply keeps_try|]. intros r0.
  keeps_steps.
Qed.

Lemma restore_error_overrides_result_witness :
  exists ed',
    ReadLine Scripted.X Scripted.no_prompt Scripted.no_prompt 10
      (Scripted.New Scripted.worldRestoreFails)
    = Some (Ok (mkLineRead "" false
                  (Some (Errorf "can't restore terminal attribute" "EIO")))
               ed').
Proof.
  eexists.
  eapply (restore_error_overrides_result Scripted.X Scripted.no_prompt
            Scripted.no_prompt 10 (Scripted.New Scripted.worldRestoreFails)).
  - vm_compute. reflexivity.
  - vm_compute. reflexivity.
  - vm_compute. reflexivity.
  - vm_compute. reflexivity.
Defined.

Lemma ReadLine_appends_line_of_loop_result_witness :
  exists lr ed',
    ReadLine Scripted.X Scripted.no_prompt Scripted.no_prompt 10
      (Scripted.NewWithHistory ["ls"] Scripted.worldLine) = Some (Ok lr ed') /\
    isLine lr = true /\
    historyItems ed' = ["ls"] ++ [Line lr].
Proof.
  eexists. eexists. split; [vm_compute; reflexivity|]. split; [reflexivity|].
  refine (proj1 (proj2 (ReadLine_appends_line_of_loop_result Scripted.X
            Scripted.no_prompt Scripted.no_prompt 10
            (Scripted.NewWithHistory ["ls"] Scripted.worldLine) _ _
            scripted_builtins_keep_history _)) _).
  - vm_compute. reflexivity.
  - reflexivity.
Defined.

(** Scenario S1: letters and Enter give the line, and the history gains
    it. *)
Example scenario_line_submitted :
  exists ed',
    ReadLine Scripted.X Scripted.no_prompt Scripted.no_prompt 10
      (Scripted.NewWithHistory ["ls"] Scripted.worldLine)
    = Some (Ok (mkLineRead "hi" false None) ed') /\
    historyItems ed' = ["ls"; "hi"].
Proof. eexists. split; [vm_compute; reflexivity | reflexivity]. Qed.

(** Scenario S2: Ctrl-D on the empty line gives EOF, and the history is
    unchanged. *)
Example scenario_eof_on_empty_line :
  exists ed',
    ReadLine Scripted.X Scripted.no_prompt Scripted.no_prompt 10
      (Scripted.NewWithHistory ["ls"] Scripted.worldCtrlD)
    = Some (Ok (mkLineRead "" true None) ed') /\
    historyItems ed' = ["ls"].
Proof. eexists. split; [vm_compute; reflexivity | reflexivity]. Qed.

(** C2 as first stated fails when restoring the terminal fails after a
    line was entered: the result is an error and the history has grown. *)
Lemma ReadLine_error_result_with_line_appended :
  exists lr ed',
    ReadLine Scripted.X Scripted.no_prompt Scripted.no_prompt 10
      (Scripted.NewWithHistory ["ls"] Scripted.worldRestoreFails)
    = Some (Ok lr ed') /\
    isLine lr = false /\
    Err lr = Some (Errorf "can't restore terminal attribute" "EIO") /\
    historyItems ed' = ["ls"; "hi"] /\
    historyItems ed' <>
      historyItems (Scripted.NewWithHistory ["ls"] Scripted.worldRestoreFails).
Proof.
  eexists. eexists. split; [vm_compute; reflexivity|].
  split; [reflexivity|]. split; [reflexivity|]. split; [reflexivity|].
  discriminate.
Qed.

(** C5 on the code: Enter on the empty line.  The builtin bound to Enter
    hands the line over as it is, ReadLine returns what the builtin gave,
    and no member of the result is set. *)
Theorem ReadLine_empty_line_sets_no_member :
  exists ed',
    ReadLine Scripted.X Scripted.no_prompt Scripted.no_prompt 10
      (Scripted.New Scripted.worldEnter)
    = Some (Ok (mkLineRead "" false None) ed') /\
    nonZeroMembers (mkLineRead "" false None) = 0%nat.
Proof. eexists. split; [vm_compute; reflexivity | reflexivity]. Qed.

(** C3 on the code: [startReadLine] tests the first number of the reply
    of [readCPR], the row.  With the cursor in row 5, column 1, it writes
    [LackEOL]; with the cursor in row 1, column 7, it does not. *)
Theorem startReadLine_tests_row_of_reply :
  (cpr_col (5, 1) = 1 /\
   exists ed',
     startReadLine Scripted.X (Scripted.New (Scripted.worldCursorAt 5 1))
       = Ok None ed' /\
     In LackEOL (file ed'))
  /\
  (cpr_col (1, 7) <> 1 /\
   exists ed',
     startReadLine Scripted.X (Scripted.New (Scripted.worldCursorAt 1 7))
       = Ok None ed' /\
     ~ In LackEOL (file ed')).
Proof.
  split; split.
  - reflexivity.
  - eexists. split; [vm_compute; reflexivity|]. simpl. auto.
  - discriminate.
  - eexists. split; [vm_compute; reflexivity|]. simpl.
    intros [H | [H | H]]; try discriminate; exact H.
Qed.

(* ================================================================== *)
(** ** The mode line with a scrollbar                                   *)
(* ================================================================== *)

Section RendererFacts.

Context {buffer cell Pos : Type}.
Variable B : @BufferOps buffer cell Pos.

(** The mode line makes three [writes] calls and nothing else. *)
Lemma modeLineRenderer_render_calls (ml : modeLineRenderer) (b : buffer)
      (calls : list drawCall) :
  exists b1,
    modeLineRenderer_render B ml (b, calls) =
    Ok tt (b1, calls ++ [CallWrites (title ml) (styleForMode B);
                         CallWrites " " "";
                         CallWrites (filter ml) (styleForFilter B)]).
Proof.
  unfold modeLineRenderer_render, do_writes. run_go.
  eexists. repeat rewrite <- app_assoc. reflexivity.
Qed.

Lemma index_In {A} (l : list A) (i : Z) (a : A) : index l i = Some a -> In a l.
Proof.
  unfold index. destruct ((0 <=? i) && (i <? len_slice l)); [|discriminate].
  apply nth_error_In.
Qed.

(** C7 (as amended).  Rendering a mode line with scrollbar into a buffer
    whose rows fit its width: the scrollbar is drawn exactly when at least
    5 columns are left on the last row after the mode line, that is, when
    the scrollbar itself, 2 columns narrower, gets at least 3. *)
Theorem scrollbar_drawn_iff_five_columns_left
        (ml : modeLineWithScrollBarRenderer) (b b1 : buffer)
        (calls1 : list drawCall) (left : Z) :
  modeLineRenderer_render B (modeLine ml) (b, []) = Ok tt (b1, calls1) ->
  bufferInRange B b1 ->
  columnsLeft B b1 = Some left ->
  exists b2 calls2,
    modeLineWithScrollBarRenderer_render B ml (b, []) = Ok tt (b2, calls2) /\
    (scrollbarDrawn calls2 <-> 5 <= left).
Proof.
  intros Hm [Hrows [Hw Hfit]] Hleft.
  destruct (modeLineRenderer_render_calls (modeLine ml) b []) as [b1' Hc].
  rewrite Hm in Hc. injection Hc as _ Hcalls. simpl in Hcalls.
  unfold columnsLeft in Hleft.
  destruct (index (cells B b1) (len_slice (cells B b1) - 1)) as [last|] eqn:Ei;
    [|discriminate].
  injection Hleft as Hleft.
  pose proof (Hfit last (index_In _ _ _ Ei)) as Hlast.
  assert (Hlen : 0 <= len_slice (cells B b1)) by (unfold len_slice; lia).
  unfold modeLineWithScrollBarRenderer_render, bind. rewrite Hm. simpl.
  rewrite int_sub_exact by (unfold is_int, min_int, max_int in *; lia).
  rewrite Ei. simpl.
  rewrite (int_sub_exact (width B b1))
    by (unfold is_int, min_int, max_int in *; lia).
  rewrite int_sub_exact by (unfold is_int, min_int, max_int in *; lia).
  destruct (3 <=? width B b1 - lineWidth B last - 2) eqn:E.
  - apply Z.leb_le in E. unfold do_writes, do_writeHorizontalScrollbar. run_go.
    eexists. eexists. split; [reflexivity|]. split; [lia|].
    intros _. exists (n ml), (low ml), (high ml), (width B b1 - lineWidth B last - 2).
    apply in_or_app. right. left. reflexivity.
  - apply Z.leb_gt in E. run_go.
    eexists. eexists. split; [reflexivity|]. split; [|lia].
    intros [n0 [l0 [h0 [w0 Hin]]]]. rewrite Hcalls in Hin. simpl in Hin.
    destruct Hin as [H | [H | [H | H]]]; try discriminate; contradiction.
Qed.

End RendererFacts.

Lemma scrollbar_drawn_iff_five_columns_left_witness :
  exists b2 calls2,
    modeLineWithScrollBarRenderer_render Scripted.B
      (mkModeLineWithScrollBarRenderer (mkModeLineRenderer "COMP" "ab") 10 0 5)
      (Scripted.newBuffer 12, []) = Ok tt (b2, calls2) /\
    (scrollbarDrawn calls2 <-> 5 <= 5).
Proof.
  eapply (scrollbar_drawn_iff_five_columns_left Scripted.B
            (mkModeLineWithScrollBarRenderer (mkModeLineRenderer "COMP" "ab") 10 0 5)
            (Scripted.newBuffer 12)).
  - vm_compute. reflexivity.
  - unfold bufferInRange. simpl. split; [vm_compute; discriminate|].
    split; [vm_compute; discriminate|].
    intros row [<- | []]. vm_compute. intuition discriminate.
  - vm_compute. reflexivity.
Defined.

(** C7 as first stated fails with 3 columns left: a buffer of width 10 and
    a mode line of 7 columns; no scrollbar is drawn. *)
Lemma scrollbar_not_drawn_with_three_columns_left :
  exists b1 calls1 b2 calls2,
    modeLineRenderer_render Scripted.B (mkModeLineRenderer "COMP" "ab")
      (Scripted.newBuffer 10, []) = Ok tt (b1, calls1) /\
    columnsLeft Scripted.B b1 = Some 3 /\
    modeLineWithScrollBarRenderer_render Scripted.B
      (mkModeLineWithScrollBarRenderer (mkModeLineRenderer "COMP" "ab") 10 0 5)
      (Scripted.newBuffer 10, []) = Ok tt (b2, calls2) /\
    ~ scrollbarDrawn calls2.
Proof.
  do 4 eexists. split; [vm_compute; reflexivity|].
  split; [vm_compute; reflexivity|].
  split; [vm_compute; reflexivity|].
  intros [n0 [l0 [h0 [w0 Hin]]]]. simpl in Hin.
  destruct Hin as [H | [H | [H | H]]]; try discriminate; contradiction.
Qed.

(* ================================================================== *)
(** ** Where the result of ReadLine comes from, and the start-up check  *)
(* ================================================================== *)

Section RegistryFacts.

Context {Item Navigation Termios World : Type}.
Variable X : @Externals Item Navigation Termios World.
Variables p rp : World -> string * World.
Implicit Types ed : @Editor Item Navigation Termios World.




(** A loop that only checks: with every body returning, it returns. *)
Lemma range_returns {A} (l : list A) (body : A -> M unit unit) :
  (forall a, In a l -> body a tt = Ok tt tt) -> range l body tt = Ok tt tt.
Proof.
  induction l as [|x l IH]; intros H; [reflexivity|].
  simpl. unfold bind. rewrite (H x (or_introl eq_refl)).
  apply IH. intros a Ha. apply H. right. exact Ha.
Qed.

Lemma range_returned {A} (l : list A) (body : A -> M unit unit) :
  range l body tt = Ok tt tt -> forall a, In a l -> body a tt = Ok tt tt.
Proof.
  induction l as [|x l IH]; intros H a Ha; [contradiction|].
  simpl in H. unfold bind in H.
  destruct (body x tt) as [[] []|] eqn:Ex; [|discriminate].
  destruct Ha as [<- | Ha]; [exact Ex | apply IH; assumption].
Qed.

(** A check that returned has found every bound name in the registry. *)
Lemma init_returned_registers :
  init X tt = Ok tt tt ->
  forall m kb k name,
    In (m, kb) (keyBindings X) -> In (k, name) kb -> leBuiltins X name <> None.
Proof.
  unfold init. intros H m kb k name Hm Hk.
  pose proof (range_returned _ _ H (m, kb) Hm) as H1. simpl in H1.
  pose proof (range_returned _ _ H1 (k, name) Hk) as H2. simpl in H2.
  destruct (leBuiltins X name); [discriminate | discriminate].
Qed.

(** X15.  The check at start-up returns exactly when every name bound in
    [keyBindings], in any mode, is in the registry; otherwise it panics. *)
Lemma init_returns_iff :
  init X tt = Ok tt tt <->
  forall m kb k name,
    In (m, kb) (keyBindings X) -> In (k, name) kb -> leBuiltins X name <> None.
Proof.
  split; [apply init_returned_registers|]. unfold init.
  - intros H. apply range_returns. intros [m kb] Hm. simpl.
    apply range_returns. intros [k name] Hk. simpl.
    specialize (H m kb k name Hm Hk).
    destruct (leBuiltins X name); [reflexivity | contradiction].
Qed.

End RegistryFacts.

(* ================================================================== *)
(** ** More on the history walks                                        *)
(* ================================================================== *)

Lemma wrap_is_int (z : Z) : is_int (wrap z).
Proof.
  unfold is_int, wrap, min_int, max_int.
  pose proof (Z.mod_pos_bound (z + 2 ^ 63) (2 ^ 64)). lia.
Qed.

(** Whatever the state, a walk that returns has changed nothing but
    [current], and only to an index whose entry starts with the prefix. *)
Lemma prev_loop_shape :
  forall (fuel : nat) (i : Z) (hs : historyState) (r : bool) (hs' : historyState),
    prev_loop fuel i hs = Some (Ok r hs') ->
    (r = false /\ hs' = hs) \/
    (r = true /\ exists k, hs' = set_current hs k /\ startsWithPrefix hs k = true).
Proof.
  induction fuel as [|fuel IH]; intros i hs r hs' H; [discriminate|].
  simpl in H. destruct (0 <=? i).
  - destruct (index (items hs) i) as [s|] eqn:Ei; [|discriminate].
    destruct (HasPrefix s (prefix hs)) eqn:Ep.
    + injection H as <- <-. right. split; [reflexivity|]. exists i.
      split; [reflexivity|]. unfold startsWithPrefix. rewrite Ei. exact Ep.
    + apply IH in H. exact H.
  - injection H as <- <-. left. auto.
Qed.

Lemma next_loop_shape :
  forall (fuel : nat) (i : Z) (hs : historyState) (r : bool) (hs' : historyState),
    next_loop fuel i hs = Some (Ok r hs') ->
    (r = false /\ hs' = hs) \/
    (r = true /\ exists k, hs' = set_current hs k /\ startsWithPrefix hs k = true).
Proof.
  induction fuel as [|fuel IH]; intros i hs r hs' H; [discriminate|].
  simpl in H. destruct (i <? len_slice (items hs)).
  - destruct (index (items hs) i) as [s|] eqn:Ei; [|discriminate].
    destruct (HasPrefix s (prefix hs)) eqn:Ep.
    + injection H as <- <-. right. split; [reflexivity|]. exists i.
      split; [reflexivity|]. unfold startsWithPrefix. rewrite Ei. exact Ep.
    + apply IH in H. exact H.
  - injection H as <- <-. left. auto.
Qed.

(** X1.  [prev] and [next] never touch the entries, the prefix or the saved
    line, whatever [current] is; when they return false the state is the
    one they were given, and when they return true [current] is an index
    of [items] whose entry starts with [prefix]. *)
Theorem history_walk_selects_matching_entry (hs : historyState) (r : bool)
        (hs' : historyState) :
  prev hs = Some (Ok r hs') \/ next hs = Some (Ok r hs') ->
  items hs' = items hs /\ prefix hs' = prefix hs /\ saved hs' = saved hs /\
  (r = false -> hs' = hs) /\
  (r = true ->
   exists s, index (items hs') (current hs') = Some s /\
             HasPrefix s (prefix hs') = true).
Proof.
  intros H.
  assert (Hs : (r = false /\ hs' = hs) \/
               (r = true /\ exists k, hs' = set_current hs k /\
                                      startsWithPrefix hs k = true)).
  { destruct H as [H | H];
      [apply (prev_loop_shape _ _ _ _ _ H) | apply (next_loop_shape _ _ _ _ _ H)]. }
  destruct Hs as [[-> ->] | [-> [k [-> Hk]]]].
  - repeat split; try reflexivity. discriminate.
  - repeat split; try reflexivity; [discriminate|].
    intros _. simpl. unfold startsWithPrefix in Hk.
    destruct (index (items hs) k) as [s|]; [|discriminate]. eauto.
Qed.

Lemma history_walk_selects_matching_entry_witness :
  exists s,
    index (items (set_current Scripted.scenarioS5 2)) 2 = Some s /\
    HasPrefix s "g" = true.
Proof.
  apply (proj2 (proj2 (proj2 (proj2
    (history_walk_selects_matching_entry Scripted.scenarioS5 true
       (set_current Scripted.scenarioS5 2) (or_introl eq_refl)))))).
  reflexivity.
Defined.

(** X2.  For an [int] [current] (not the least one, for [prev]; not the
    largest, for [next]) and fewer entries than the largest [int]: [prev]
    panics, with the state untouched, exactly when [current] is above
    [len(items)], and returns otherwise; [next] panics exactly when
    [current] is below -1. *)
Theorem history_walk_panics_out_of_range (hs : historyState) :
  len_slice (items hs) < max_int ->
  (min_int < current hs <= max_int ->
   (current hs <= len_slice (items hs) ->
    exists r hs', prev hs = Some (Ok r hs')) /\
   (len_slice (items hs) < current hs ->
    prev hs = Some (Panic "index out of range" hs)))
  /\
  (min_int <= current hs < max_int ->
   (-1 <= current hs -> exists r hs', next hs = Some (Ok r hs')) /\
   (current hs < -1 -> next hs = Some (Panic "index out of range" hs))).
Proof.
  intros Hl. split; intros Hc; split; intros H.
  - destruct (Z_le_gt_dec (-1) (current hs)) as [Hge | Hlt].
    + destruct (prev_spec hs) as [[k [_ [_ [_ E]]]] | [_ E]];
        [split; [lia | exact Hl] | eauto | eauto].
    + unfold prev, history_fuel.
      rewrite int_sub_exact by (unfold is_int, min_int, max_int in *; lia).
      simpl. replace (0 <=? current hs - 1) with false
        by (symmetry; apply Z.leb_gt; lia).
      eauto.
  - unfold prev, history_fuel.
    rewrite int_sub_exact by (unfold is_int, min_int, max_int in *; lia).
    simpl. replace (0 <=? current hs - 1) with true
      by (symmetry; apply Z.leb_le; unfold len_slice in *; lia).
    unfold index.
    replace (current hs - 1 <? len_slice (items hs)) with false
      by (symmetry; apply Z.ltb_ge; lia).
    rewrite andb_false_r. reflexivity.
  - destruct (Z_le_gt_dec (current hs) (len_slice (items hs))) as [Hle | Hgt].
    + destruct (next_spec hs) as [[k [_ [_ [_ E]]]] | [_ E]];
        [split; [lia | exact Hl] | eauto | eauto].
    + unfold next, history_fuel.
      rewrite int_add_exact by (unfold is_int, min_int, max_int in *; lia).
      simpl. replace (current hs + 1 <? len_slice (items hs)) with false
        by (symmetry; apply Z.ltb_ge; lia).
      eauto.
  - unfold next, history_fuel.
    rewrite int_add_exact by (unfold is_int, min_int, max_int in *; lia).
    simpl. replace (current hs + 1 <? len_slice (items hs)) with true
      by (symmetry; apply Z.ltb_lt; unfold len_slice in *; lia).
    unfold index.
    replace (0 <=? current hs + 1) with false
      by (symmetry; apply Z.leb_gt; lia).
    reflexivity.
Qed.

Lemma history_walk_panics_out_of_range_witness :
  prev (set_current Scripted.scenarioS5 7) =
    Some (Panic "index out of range" (set_current Scripted.scenarioS5 7)) /\
  next (set_current Scripted.scenarioS5 (-2)) =
    Some (Panic "index out of range" (set_current Scripted.scenarioS5 (-2))).
Proof.
  split.
  - refine (proj2 (proj1 (history_walk_panics_out_of_range
              (set_current Scripted.scenarioS5 7) _) _) _);
      vm_compute; intuition discriminate.
  - refine (proj2 (proj2 (history_walk_panics_out_of_range
              (set_current Scripted.scenarioS5 (-2)) _) _) _);
      vm_compute; intuition discriminate.
Defined.

(** X3.  [prev] undoes [next]: after a successful [next] from an origin
    that is itself an index whose entry starts with the prefix, [prev]
    gives back the state of the origin. *)
Theorem history_prev_undoes_next (hs hs' : historyState) :
  historyInRange hs ->
  next hs = Some (Ok true hs') ->
  startsWithPrefix hs (current hs) = true ->
  prev hs' = Some (Ok true hs).
Proof.
  intros Hr Hn Ho.
  destruct (next_spec hs Hr) as [[k [Hk [Hm [Hnone E]]]] | [_ E]];
    rewrite E in Hn; [|discriminate].
  injection Hn as <-.
  assert (Hr' : historyInRange (set_current hs k)).
  { destruct Hr as [Hc Hl]. split; simpl; [lia | exact Hl]. }
  destruct (prev_spec _ Hr') as [[k' [Hk' [Hm' [Hn' E']]]] | [Hn' E']];
    simpl in *.
  - assert (k' = current hs) as ->.
    { destruct (Z.lt_trichotomy k' (current hs)) as [Hlt | [Heq | Hgt]].
      - specialize (Hn' (current hs)).
        rewrite startsWithPrefix_set_current in Hn'.
        rewrite Hn' in Ho by lia. discriminate.
      - exact Heq.
      - rewrite startsWithPrefix_set_current in Hm'.
        rewrite Hnone in Hm' by lia. discriminate. }
    rewrite E', set_current_twice, set_current_same. reflexivity.
  - specialize (Hn' (current hs)).
    rewrite startsWithPrefix_set_current in Hn'.
    assert (0 <= current hs).
    { unfold startsWithPrefix in Ho.
      destruct (index (items hs) (current hs)) eqn:Ei; [|discriminate].
      apply index_Some_range in Ei. lia. }
    rewrite Hn' in Ho by lia. discriminate.
Qed.

Lemma history_prev_undoes_next_witness :
  prev (set_current Scripted.scenarioS5 2) =
    Some (Ok true (set_current Scripted.scenarioS5 1)).
Proof.
  apply (history_prev_undoes_next (set_current Scripted.scenarioS5 1)).
  - unfold historyInRange. vm_compute. intuition discriminate.
  - reflexivity.
  - reflexivity.
Defined.

Lemma index_app_old {A} (l : list A) (a : A) (j : Z) :
  j < len_slice l -> index (l ++ [a]) j = index l j.
Proof.
  intros H. unfold index, len_slice in *. rewrite length_app. simpl.
  destruct (0 <=? j) eqn:E0; simpl; [|reflexivity].
  apply Z.leb_le in E0.
  replace (j <? Z.of_nat (List.length l + 1)) with true
    by (symmetry; apply Z.ltb_lt; lia).
  replace (j <? Z.of_nat (List.length l)) with true
    by (symmetry; apply Z.ltb_lt; lia).
  apply nth_error_app1. lia.
Qed.

Lemma startsWithPrefix_append_old (hs : historyState) (l : string) (j : Z) :
  j < len_slice (items hs) ->
  startsWithPrefix (history_append hs l) j = startsWithPrefix hs j.
Proof.
  intros H. unfold startsWithPrefix. simpl. rewrite index_app_old by exact H.
  reflexivity.
Qed.

(** X4.  Appending a line does not disturb a walk back: from the same
    [current], [prev] on the longer history finds what it found before. *)
Theorem history_append_keeps_prev (hs : historyState) (l : string) (r : bool)
        (hs' : historyState) :
  historyInRange hs ->
  len_slice (items hs) + 1 < max_int ->
  prev hs = Some (Ok r hs') ->
  prev (history_append hs l) = Some (Ok r (history_append hs' l)).
Proof.
  intros Hr Hl Hp.
  assert (Hr' : historyInRange (history_append hs l)).
  { destruct Hr as [Hc _]. unfold historyInRange, len_slice in *. simpl.
    rewrite length_app. simpl. lia. }
  destruct Hr as [Hc _].
  assert (Hold : forall j, j < current hs ->
            startsWithPrefix (history_append hs l) j = startsWithPrefix hs j).
  { intros j Hj. apply startsWithPrefix_append_old. lia. }
  assert (Hl0 : len_slice (items hs) < max_int) by lia.
  destruct (prev_spec hs (conj Hc Hl0)) as [[k [Hk [Hm [Hn E]]]] | [Hn E]];
    rewrite E in Hp; injection Hp as <- <-;
    destruct (prev_spec _ Hr') as [[k' [Hk' [Hm' [Hn' E']]]] | [Hn' E']];
    simpl in *.
  - assert (k' = k) as ->.
    { destruct (Z.lt_trichotomy k' k) as [Hlt | [Heq | Hgt]]; [|exact Heq|].
      - specialize (Hn' k). rewrite Hold in Hn' by lia.
        rewrite Hn' in Hm by lia. discriminate.
      - rewrite Hold in Hm' by lia. rewrite Hn in Hm' by lia. discriminate. }
    exact E'.
  - specialize (Hn' k). rewrite Hold in Hn' by lia.
    rewrite Hn' in Hm by lia. discriminate.
  - rewrite Hold in Hm' by lia. rewrite Hn in Hm' by lia. discriminate.
  - exact E'.
Qed.

Lemma history_append_keeps_prev_witness :
  prev (history_append (set_current Scripted.scenarioS5 2) "go build") =
    Some (Ok true
            (history_append (set_current Scripted.scenarioS5 1) "go build")).
Proof.
  apply (history_append_keeps_prev (set_current Scripted.scenarioS5 2)).
  - unfold historyInRange. vm_compute. intuition discriminate.
  - vm_compute. reflexivity.
  - reflexivity.
Defined.

(* ================================================================== *)
(** ** More on accepting                                                *)
(* ================================================================== *)

Lemma slice_None (s : string) (lo hi : Z) :
  slice s lo hi = None -> lo < 0 \/ hi < lo \/ len s < hi.
Proof.
  unfold slice.
  destruct (0 <=? lo) eqn:E0; destruct (lo <=? hi) eqn:E1;
    destruct (hi <=? len s) eqn:E2; simpl; try discriminate; intros _;
    rewrite ?Z.leb_gt in *; lia.
Qed.

Lemma slice_Some (s : string) (lo hi : Z) (r : string) :
  slice s lo hi = Some r -> 0 <= lo <= hi /\ hi <= len s.
Proof.
  unfold slice.
  destruct (0 <=? lo) eqn:E0; destruct (lo <=? hi) eqn:E1;
    destruct (hi <=? len s) eqn:E2; simpl; try discriminate; intros _;
    rewrite ?Z.leb_le in *; lia.
Qed.

(** The bytes of [s] from [n] on. *)
Lemma substring_from_append (a s : string) (n : nat) :
  substring (String.length a + n) (String.length (a ++ s) - (String.length a + n))
    (a ++ s)
  = substring n (String.length s - n) s.
Proof.
  induction a as [|c a IH]; simpl.
  - reflexivity.
  - exact IH.
Qed.

Lemma substring_from_from (s : string) :
  forall a n : nat,
    (a <= String.length s)%nat ->
    substring n (String.length (substring a (String.length s - a) s) - n)
      (substring a (String.length s - a) s)
    = substring (a + n) (String.length s - (a + n)) s.
Proof.
  induction s as [|c s IH]; intros a n H; simpl in H.
  - assert (a = 0%nat) by lia. subst. reflexivity.
  - destruct a as [|a].
    + simpl. rewrite substring_0_all. simpl. reflexivity.
    + simpl. apply IH. lia.
Qed.

Section AcceptMore.

Context {Item Navigation Termios World : Type}.
Implicit Types ed : @Editor Item Navigation Termios World.

(** X5.  [acceptCompletion] panics exactly when there is no completion
    state, or when a candidate is selected and an end of the range lies
    outside the line; and a panic leaves the editor as it was, completion
    state and mode included. *)
Theorem acceptCompletion_panics_iff ed :
  ((exists msg ed', acceptCompletion ed = Panic msg ed') <->
   (completion_ (es ed) = None \/
    exists c, completion_ (es ed) = Some c /\
              0 <= c_current c < len_slice (candidates c) /\
              ~ (0 <= start c <= len (line (es ed)) /\
                 0 <= end_ c <= len (line (es ed)))))
  /\
  (forall msg ed', acceptCompletion ed = Panic msg ed' -> ed' = ed).
Proof.
  destruct (completion_ (es ed)) as [c|] eqn:Ec.
  - destruct (Z_le_dec 0 (c_current c)) as [H0|H0];
      [destruct (Z_lt_dec (c_current c) (len_slice (candidates c))) as [H1|H1]|].
    + destruct (index_in_range (candidates c) (c_current c) (conj H0 H1))
        as [cand Hi].
      destruct (slice_to (line (es ed)) (start c)) as [l|] eqn:Es.
      * destruct (slice_from (line (es ed)) (end_ c)) as [r|] eqn:Ee.
        -- apply slice_Some in Es. apply slice_Some in Ee.
           rewrite (acceptCompletion_selection ed c cand Ec Hi) by lia.
           split; [|discriminate]. split.
           ++ intros [msg [ed' H]]. discriminate.
           ++ intros [H | [c' [E [_ Hn]]]]; [discriminate|].
              injection E as <-. exfalso. apply Hn. lia.
        -- assert (Hp : acceptCompletion ed = Panic "slice bounds out of range" ed).
           { unfold acceptCompletion. run_go. rewrite Ec. simpl.
             replace ((0 <=? c_current c) &&
                      (c_current c <? len_slice (candidates c))) with true
               by (symmetry; apply andb_true_iff; split;
                   [apply Z.leb_le | apply Z.ltb_lt]; lia).
             rewrite Hi. simpl. rewrite Es. simpl. rewrite Ee. reflexivity. }
           rewrite Hp. split.
           ++ split; [|eauto]. intros _. right. exists c.
              split; [reflexivity|]. split; [lia|].
              apply slice_None in Ee. unfold len in *. lia.
           ++ intros msg ed' H. injection H as _ <-. reflexivity.
      * assert (Hp : acceptCompletion ed = Panic "slice bounds out of range" ed).
        { unfold acceptCompletion. run_go. rewrite Ec. simpl.
          replace ((0 <=? c_current c) &&
                   (c_current c <? len_slice (candidates c))) with true
            by (symmetry; apply andb_true_iff; split;
                [apply Z.leb_le | apply Z.ltb_lt]; lia).
          rewrite Hi. simpl. rewrite Es. reflexivity. }
        rewrite Hp. split.
        -- split; [|eauto]. intros _. right. exists c.
           split; [reflexivity|]. split; [lia|].
           apply slice_None in Es. unfold len in *. lia.
        -- intros msg ed' H. injection H as _ <-. reflexivity.
    + rewrite (acceptCompletion_no_selection ed c Ec) by lia.
      split; [|discriminate]. split.
      * intros [msg [ed' H]]. discriminate.
      * intros [H | [c' [E [Hr _]]]]; [discriminate|].
        injection E as <-. lia.
    + rewrite (acceptCompletion_no_selection ed c Ec) by lia.
      split; [|discriminate]. split.
      * intros [msg [ed' H]]. discriminate.
      * intros [H | [c' [E [Hr _]]]]; [discriminate|].
        injection E as <-. lia.
  - assert (Hp : acceptCompletion ed = Panic "nil pointer dereference" ed).
    { unfold acceptCompletion. run_go. rewrite Ec. reflexivity. }
    rewrite Hp. split.
    + split; eauto.
    + intros msg ed' H. injection H as _ <-. reflexivity.
Qed.

(** X6.  With the range inside the line and the dot between its end and
    the end of the line, accepting keeps the dot inside the new line and
    in front of the same text: what follows the dot is what followed it
    before. *)
Theorem acceptCompletion_keeps_text_after_dot ed (c : completion)
        (cand : candidate) :
  completion_ (es ed) = Some c ->
  index (candidates c) (c_current c) = Some cand ->
  0 <= start c <= end_ c ->
  end_ c <= dot (es ed) <= len (line (es ed)) ->
  len (line (es ed)) + len (text cand) <= max_int ->
  exists ed' rest,
    acceptCompletion ed = Ok tt ed' /\
    start c + len (text cand) <= dot (es ed') <= len (line (es ed')) /\
    slice_from (line (es ed)) (dot (es ed)) = Some rest /\
    slice_from (line (es ed')) (dot (es ed')) = Some rest.
Proof.
  intros Hc Hi Hbe Hd Hfit.
  assert (Hlen : 0 <= len (text cand)) by (unfold len; lia).
  eexists. eexists. split.
  { apply (acceptCompletion_selection ed c cand Hc Hi); lia. }
  simpl. rewrite int_add_sub_sub.
  rewrite wrap_id by (unfold is_int, min_int, max_int in *; lia).
  set (b := Z.to_nat (start c)). set (e := Z.to_nat (end_ c)).
  set (s := line (es ed)). set (t := text cand).
  assert (Hpre : String.length (substring 0 b s) = b).
  { apply length_substring. unfold len, b, s in *. lia. }
  assert (Hpost : String.length (substring e (String.length s - e) s)
                  = (String.length s - e)%nat).
  { apply length_substring. unfold len, e, s in *. lia. }
  assert (Hnew : len (substring 0 b s ++ t ++ substring e (String.length s - e) s)
                 = len s + len t - (end_ c - start c)).
  { unfold len. rewrite !length_append, Hpre, Hpost.
    unfold len, b, e, s in *. lia. }
  split; [rewrite Hnew; unfold s, t in *; lia|].
  split; [apply slice_from_ok; unfold s; lia|].
  rewrite slice_from_ok by (rewrite Hnew; unfold s, t in *; lia).
  f_equal.
  set (d := Z.to_nat (dot (es ed))).
  replace (Z.to_nat (dot (es ed) + len t - (end_ c - start c)))
    with (String.length (substring 0 b s) + (String.length t + (d - e)))%nat
    by (rewrite Hpre; unfold len, b, e, d, s, t in *; lia).
  rewrite substring_from_append.
  rewrite substring_from_append.
  rewrite substring_from_from by (unfold len, e, s in *; lia).
  replace (e + (d - e))%nat with d by (unfold len, e, d, s in *; lia).
  reflexivity.
Qed.

(** X7.  A history entry selected by a successful [prev] or [next] can be
    accepted: [acceptHistory] then returns, the line starts with the prefix
    of the walk and the dot is at its end. *)
Theorem acceptHistory_after_walk ed (hs' : historyState) :
  prev (history (es ed)) = Some (Ok true hs') \/
  next (history (es ed)) = Some (Ok true hs') ->
  exists ed',
    acceptHistory (with_es (set_history hs') ed) = Ok tt ed' /\
    HasPrefix (line (es ed')) (prefix (history (es ed))) = true /\
    dot (es ed') = len (line (es ed')).
Proof.
  intros H.
  assert (Hs : exists k, hs' = set_current (history (es ed)) k /\
                         startsWithPrefix (history (es ed)) k = true).
  { destruct H as [H | H];
      [apply prev_loop_shape in H | apply next_loop_shape in H];
      destruct H as [[E _] | [_ Hk]]; try discriminate; exact Hk. }
  destruct Hs as [k [-> Hk]]. unfold startsWithPrefix in Hk.
  destruct (index (items (history (es ed))) k) as [s|] eqn:Ei; [|discriminate].
  unfold acceptHistory. run_go. rewrite Ei. simpl.
  eexists. split; [reflexivity|]. simpl. auto.
Qed.

End AcceptMore.

Lemma acceptCompletion_keeps_text_after_dot_witness :
  exists ed' rest,
    acceptCompletion (ScriptedMore.editorCompleting 10) = Ok tt ed' /\
    5 + len "hello" <= dot (es ed') <= len (line (es ed')) /\
    slice_from "echo h and more" 10 = Some rest /\
    slice_from (line (es ed')) (dot (es ed')) = Some rest.
Proof.
  apply (acceptCompletion_keeps_text_after_dot (ScriptedMore.editorCompleting 10)
           (mkCompletion [mkCandidate "hello"; mkCandidate "help"] 0 5 6)
           (mkCandidate "hello")).
  - reflexivity.
  - reflexivity.
  - simpl. lia.
  - vm_compute. intuition discriminate.
  - vm_compute. discriminate.
Defined.

Lemma acceptHistory_after_walk_witness :
  exists ed',
    acceptHistory (with_es (set_history (set_current Scripted.scenarioS5 1))
                     (Scripted.scenarioHistory 2)) = Ok tt ed' /\
    HasPrefix (line (es ed')) "g" = true /\
    dot (es ed') = len (line (es ed')).
Proof.
  apply (acceptHistory_after_walk (Scripted.scenarioHistory 2)
           (set_current Scripted.scenarioS5 1)).
  left. reflexivity.
Defined.

(* ================================================================== *)
(** ** More on the terminal session                                     *)
(* ================================================================== *)

Section SessionMore.

Context {Item Navigation Termios World : Type}.
Variable X : @Externals Item Navigation Termios World.
Variables p rp : World -> string * World.
Implicit Types ed : @Editor Item Navigation Termios World.


(** What a successful [SetupTerminal] has done to the editor. *)
Lemma SetupTerminal_success ed (t : Termios) ed1 :
  SetupTerminal X ed = Ok (inl t) ed1 ->
  es ed1 = es ed /\ savedTermios ed1 = savedTermios ed /\
  file ed1 = file ed ++ [autowrapOff].
Proof.
  unfold SetupTerminal, bind, call. simpl.
  destruct (NewTermiosFromFd X (world ed)) as [[term | e] w1]; simpl;
    [|discriminate].
  destruct (ApplyToFd X _ w1) as [[e |] w2]; simpl; [discriminate|].
  destruct (FlushInput X w2) as [[e |] w3]; simpl; [discriminate|].
  intros H. injection H as _ <-. simpl. auto.
Qed.

(** X9.  When the terminal is in raw mode and the reply to the
    cursor-position query cannot be read, ReadLine returns that error and
    stops there, whatever the fuel: the last thing written is the query,
    the autowrap-on sequence is not written, and the saved attributes stay
    in the editor instead of being applied again. *)
Theorem ReadLine_leaves_raw_mode_when_reply_fails (fuel : nat) ed
        (t : Termios) ed1 (e : error) (w : World) :
  SetupTerminal X ed = Ok (inl t) ed1 ->
  readCPR X (world ed1) = (inr e, w) ->
  exists ed',
    ReadLine X p rp fuel ed = Some (Ok (mkLineRead "" false (Some e)) ed') /\
    file ed' = file ed ++ [autowrapOff; cursorQuery] /\
    ~ In autowrapOn [autowrapOff; cursorQuery] /\
    savedTermios ed' = Some t /\
    es ed' = es ed.
Proof.
  intros Hs Hc. destruct (SetupTerminal_success _ _ _ Hs) as [He [_ Hf]].
  unfold ReadLine, startReadLine, bind. rewrite Hs. simpl.
  unfold call. simpl. rewrite Hc. simpl.
  eexists. split; [reflexivity|]. simpl.
  rewrite Hf, <- app_assoc. simpl.
  repeat split; try assumption; try reflexivity.
  intros [H | [H | []]]; discriminate.
Qed.

(** X10.  When the terminal cannot be prepared, ReadLine returns the error
    of [startReadLine] at once, whatever the fuel, with the editor as
    [startReadLine] left it: the line, the mode, the tips and the history
    are untouched, no prompt is computed and no key is read. *)
Theorem ReadLine_returns_start_error (fuel : nat) ed (err : error) ed1 :
  startReadLine X ed = Ok (Some err) ed1 ->
  ReadLine X p rp fuel ed = Some (Ok (mkLineRead "" false (Some err)) ed1) /\
  es ed1 = es ed.
Proof.
  intros Hs. split.
  - unfold ReadLine. rewrite Hs. reflexivity.
  - apply (keeps_startReadLine X (fun ed => es ed) (fun _ _ H => H) _ _ _ Hs).
Qed.

(** What [finishReadLine_reset] leaves: the editor state at rest but for
    the saved attributes, the line as it was, and a newline written. *)
Lemma finishReadLine_reset_returns (lr : LineRead) ed :
  exists ed1,
    finishReadLine_reset X lr ed = Ok tt ed1 /\
    (tips (es ed1) = [] /\ mode (es ed1) = modeInsert /\
     completion_ (es ed1) = None /\ rprompt (es ed1) = "" /\
     dot (es ed1) = len (line (es ed1)) /\
     line (es ed1) = line (es ed) /\
     savedTermios ed1 = savedTermios ed /\
     file ed1 = file ed ++ [String "010" ""]).
Proof.
  unfold finishReadLine_reset, refresh. run_go.
  destruct (negb (EOF lr) && match Err lr with None => true | Some _ => false end);
    simpl; unfold call; simpl;
    match goal with
    | |- context [writer_refresh X ?s ?w] =>
        destruct (writer_refresh X s w) as [e w']
    end; simpl; eexists; (split; [reflexivity|]); simpl; repeat split.
Qed.

Lemma finishReadLine_reset_post (lr : LineRead) ed ed1 :
  finishReadLine_reset X lr ed = Ok tt ed1 ->
  tips (es ed1) = [] /\ mode (es ed1) = modeInsert /\
  completion_ (es ed1) = None /\ rprompt (es ed1) = "" /\
  dot (es ed1) = len (line (es ed1)) /\
  line (es ed1) = line (es ed) /\
  savedTermios ed1 = savedTermios ed /\
  file ed1 = file ed ++ [String "010" ""].
Proof.
  intros H. destruct (finishReadLine_reset_returns lr ed) as [ed0 [E P]].
  rewrite E in H. injection H as <-. exact P.
Qed.

Lemma CleanupTerminal_post (t : option Termios) ed (r : option error) ed' :
  CleanupTerminal X t ed = Ok r ed' ->
  es ed' = es ed /\ savedTermios ed' = savedTermios ed /\
  file ed' = file ed ++ [autowrapOn].
Proof.
  unfold CleanupTerminal, bind, WriteString, modify, try, call. simpl.
  destruct t as [t|]; simpl; [|discriminate].
  destruct (ApplyToFd X t (world ed)) as [e w]. intros H.
  injection H as _ <-. simpl. auto.
Qed.

(** X11.  Every ReadLine that got past [startReadLine] and returns leaves
    the editor at rest: no tips, insert mode, no completion state, an empty
    rprompt, the dot at the end of the line and no saved attributes; and
    the last two things it wrote are a newline and the autowrap-on
    sequence. *)
Theorem ReadLine_leaves_editor_at_rest (fuel : nat) ed ed1 (lr : LineRead) ed' :
  startReadLine X ed = Ok None ed1 ->
  ReadLine X p rp fuel ed = Some (Ok lr ed') ->
  editorAtRest ed' /\
  exists written, file ed' = written ++ [String "010" ""; autowrapOn].
Proof.
  intros Hs H. unfold ReadLine in H. rewrite Hs in H.
  destruct (readLineLoop X p rp fuel (readLineInit X ed1))
    as [[lr0 ed2 | msg ed2]|]; [| |discriminate].
  - injection H as H.
    destruct (finishReadLine_cases _ _ _ _ _ H)
      as [ed3 [ed4 [err [E3 [E4 [-> _]]]]]].
    destruct (finishReadLine_reset_post _ _ _ E3)
      as [H1 [H2 [H3 [H4 [H5 [_ [_ H7]]]]]]].
    destruct (CleanupTerminal_post _ _ _ _ E4) as [He [_ Hf]].
    split.
    + unfold editorAtRest. simpl. rewrite He. auto 10.
    + exists (file ed2). simpl. rewrite Hf, H7, <- app_assoc. reflexivity.
  - destruct (finishReadLine X {| Line := ""; EOF := false; Err := None |} ed2);
      discriminate.
Qed.

(** X12.  When the loop panics, the deferred [finishReadLine] runs on the
    zero [LineRead], which is neither EOF nor an error: an empty line is
    appended to the history before the panic goes on; and with the saved
    attributes in place the terminal is restored and the panic is the one
    of the loop. *)
Theorem ReadLine_panic_appends_empty_line (fuel : nat) ed ed1 (msg : string) ed2 :
  startReadLine X ed = Ok None ed1 ->
  readLineLoop X p rp fuel (readLineInit X ed1) = Some (Panic msg ed2) ->
  exists msg' ed3,
    ReadLine X p rp fuel ed = Some (Panic msg' ed3) /\
    historyItems ed3 = historyItems ed2 ++ [""] /\
    (savedTermios ed2 <> None ->
     msg' = msg /\
     exists written, file ed3 = written ++ [String "010" ""; autowrapOn]).
Proof.
  intros Hs Hl. unfold ReadLine. rewrite Hs, Hl.
  destruct (finishReadLine_reset_history X (mkLineRead "" false None) ed2)
    as [ed3 [E3 [Hsaved Hh]]]. simpl in Hh.
  destruct (finishReadLine_reset_post _ _ _ E3) as [_ [_ [_ [_ [_ [_ [_ Hf]]]]]]].
  unfold finishReadLine, bind. rewrite E3. simpl.
  unfold CleanupTerminal, bind, WriteString, modify, try, call. simpl.
  rewrite Hsaved.
  destruct (savedTermios ed2) as [t|]; simpl.
  - destruct (ApplyToFd X t (world ed3)) as [e w]. simpl.
    eexists. eexists. split; [reflexivity|]. split; [exact Hh|].
    intros _. split; [reflexivity|].
    exists (file ed2). simpl. rewrite Hf, <- app_assoc. reflexivity.
  - eexists. eexists. split; [reflexivity|]. split; [exact Hh|].
    intros Hn. contradiction.
Qed.

End SessionMore.

Lemma ReadLine_leaves_raw_mode_when_reply_fails_witness :
  exists ed',
    ReadLine Scripted.X Scripted.no_prompt Scripted.no_prompt 10
      (Scripted.New ScriptedMore.worldNoReply)
    = Some (Ok (mkLineRead "" false (Some "bad CPR")) ed') /\
    file ed' = [] ++ [autowrapOff; cursorQuery] /\
    ~ In autowrapOn [autowrapOff; cursorQuery] /\
    savedTermios ed' = Some (Scripted.mkTermios true true 1 0) /\
    es ed' = es (Scripted.New ScriptedMore.worldNoReply).
Proof.
  eapply (ReadLine_leaves_raw_mode_when_reply_fails Scripted.X
            Scripted.no_prompt Scripted.no_prompt 10
            (Scripted.New ScriptedMore.worldNoReply)).
  - vm_compute. reflexivity.
  - vm_compute. reflexivity.
Defined.

Lemma ReadLine_returns_start_error_witness :
  exists ed1,
    ReadLine Scripted.X Scripted.no_prompt Scripted.no_prompt 0
      (Scripted.New ScriptedMore.worldNoRawMode)
    = Some (Ok (mkLineRead "" false
                  (Some "can't set up terminal attribute: ENOTTY")) ed1) /\
    es ed1 = es (Scripted.New ScriptedMore.worldNoRawMode).
Proof.
  eexists.
  eapply (ReadLine_returns_start_error Scripted.X Scripted.no_prompt
            Scripted.no_prompt 0 (Scripted.New ScriptedMore.worldNoRawMode)).
  vm_compute. reflexivity.
Defined.

Lemma ReadLine_leaves_editor_at_rest_witness :
  exists lr ed',
    ReadLine Scripted.X Scripted.no_prompt Scripted.no_prompt 10
      (Scripted.New Scripted.worldLine) = Some (Ok lr ed') /\
    editorAtRest ed' /\
    exists written, file ed' = written ++ [String "010" ""; autowrapOn].
Proof.
  eexists. eexists. split; [vm_compute; reflexivity|].
  eapply (ReadLine_leaves_editor_at_rest Scripted.X Scripted.no_prompt
            Scripted.no_prompt 10 (Scripted.New Scripted.worldLine)).
  - vm_compute. reflexivity.
  - vm_compute. reflexivity.
Defined.

Lemma ReadLine_panic_appends_empty_line_witness :
  exists msg' ed3,
    ReadLine Scripted.X Scripted.no_prompt Scripted.no_prompt 10
      (Scripted.NewWithHistory ["ls"] ScriptedMore.worldTab)
    = Some (Panic msg' ed3) /\
    historyItems ed3 = ["ls"; ""].
Proof.
  destruct (ReadLine_panic_appends_empty_line Scripted.X Scripted.no_prompt
              Scripted.no_prompt 10
              (Scripted.NewWithHistory ["ls"] ScriptedMore.worldTab)
              (mkEditor (Some (Scripted.mkTermios true true 1 0))
                 [autowrapOff; cursorQuery] ScriptedMore.worldTab
                 (es (Scripted.NewWithHistory ["ls"] ScriptedMore.worldTab)))
              "nil pointer dereference"
              (mkEditor (Some (Scripted.mkTermios true true 1 0))
                 [autowrapOff; cursorQuery]
                 (Scripted.mkWorld [] (inl (1, 1)) [])
                 (es (Scripted.NewWithHistory ["ls"] ScriptedMore.worldTab))))
    as [msg' [ed3 [H1 [H2 _]]]].
  - vm_compute. reflexivity.
  - vm_compute. reflexivity.
  - exists msg', ed3. split; [exact H1 | exact H2].
Defined.


(* ================================================================== *)
(** ** The dispatch of keys                                             *)
(* ================================================================== *)

Lemma lookup_In {K V} (eqb : K -> K -> bool) (m : list (K * V)) (k : K) (v : V) :
  lookup eqb m k = Some v -> exists k', In (k', v) m.
Proof.
  induction m as [|[k0 v0] m IH]; simpl; [discriminate|].
  destruct (eqb k0 k).
  - intros H. injection H as <-. eauto.
  - intros H. destruct (IH H) as [k' Hk]. eauto.
Qed.

Lemma lookup_bound {K V} (eqb : K -> K -> bool) (m : list (K * V)) (k : K) (v : V) :
  (forall x, eqb x x = true) -> In (k, v) m -> lookup eqb m k <> None.
Proof.
  intros Hrefl. induction m as [|[k0 v0] m IH]; simpl; [contradiction|].
  intros [E | Hin].
  - injection E as -> ->. rewrite Hrefl. discriminate.
  - destruct (eqb k0 k); [discriminate | apply IH; exact Hin].
Qed.

Lemma Key_eqb_refl (k : Key) : Key_eqb k k = true.
Proof. unfold Key_eqb. rewrite !Z.eqb_refl. reflexivity. Qed.

Section DispatchFacts.

Context {Item Navigation Termios World : Type}.
Variable X : @Externals Item Navigation Termios World.
Variables p rp : World -> string * World.
Implicit Types ed : @Editor Item Navigation Termios World.

(** Every mode has its map in [keyBindings], and the map binds
    [DefaultBinding]. *)
Lemma keyBindings_mode (m : bufferMode) :
  exists kb,
    lookup bufferMode_eqb (keyBindings X) m = Some kb /\
    In (m, kb) (keyBindings X) /\
    exists name, In (DefaultBinding X, name) kb.
Proof.
  destruct m; simpl; eexists; (split; [reflexivity|]);
    (split; [auto 10 | eexists; simpl; auto 30]).
Qed.

Lemma lookupKey_panic :
  init X tt = Ok tt tt ->
  forall (fuel : nat) (k : Key) ed (msg : string) ed',
    lookupKey X fuel k ed = Some (Panic msg ed') ->
    panicOfBuiltin X k msg ed'.
Proof.
  intros Hinit. pose proof (init_returned_registers X Hinit) as Hreg.
  induction fuel as [|fuel IH]; intros k ed msg ed' H; [discriminate|].
  cbn [lookupKey] in H.
  destruct (keyBindings_mode (mode (es ed))) as [kb [El [Hin [dn Hd]]]].
  rewrite El in H.
  assert (Hname : exists name k',
            In (k', name) kb /\
            match lookup Key_eqb kb k with
            | Some name => name
            | None => match lookup Key_eqb kb (DefaultBinding X) with
                      | Some name => name
                      | None => ""
                      end
            end = name).
  { destruct (lookup Key_eqb kb k) as [name|] eqn:Ek.
    - destruct (lookup_In _ _ _ _ Ek) as [k' Hk']. eauto.
    - destruct (lookup Key_eqb kb (DefaultBinding X)) as [name|] eqn:Ed.
      + destruct (lookup_In _ _ _ _ Ed) as [k' Hk']. eauto.
      + exfalso. apply (lookup_bound Key_eqb kb _ _ Key_eqb_refl Hd Ed). }
  destruct Hname as [name [k' [Hk' En]]]. rewrite En in H.
  pose proof (Hreg _ _ _ _ Hin Hk') as Hf.
  destruct (leBuiltins X name) as [f|] eqn:Ef; [|contradiction].
  destruct (f ed k) as [[ret|] ed1 | msg1 ed1] eqn:Er.
  - destruct (action ret); try discriminate. apply (IH _ _ _ _ H).
  - discriminate.
  - injection H as <- <-. exists name, f, ed. auto.
Qed.

(** The statements of the loop before the dispatch always return. *)
Lemma readLineHead_returns ed :
  exists r ed', readLineHead X p rp ed = Ok r ed'.
Proof.
  unfold readLineHead, refresh, bind, call, get, modify, ret, pushTip. simpl.
  destruct (p (world ed)) as [s1 w1]. simpl.
  destruct (rp w1) as [s2 w2]. simpl.
  destruct (negb (bufferMode_eqb (mode (es ed)) modeCompletion)); simpl;
    match goal with
    | |- context [writer_refresh X ?s ?w] =>
        destruct (writer_refresh X s w) as [[e|] w3]
    end; simpl; eauto;
    match goal with
    | |- context [readKey X ?w] => destruct (readKey X w) as [[k|e] w4]
    end; simpl; eauto.
Qed.

(** X13.  Once the start-up check has passed, the loop of ReadLine never
    calls a nil builtin: whatever the mode and the key, bound or not, a
    panic of the loop is a panic raised inside a registered builtin. *)
Theorem init_guards_dispatch :
  init X tt = Ok tt tt ->
  forall (fuel : nat) ed (msg : string) ed',
    readLineLoop X p rp fuel ed = Some (Panic msg ed') ->
    exists k, panicOfBuiltin X k msg ed'.
Proof.
  intros Hinit. induction fuel as [|fuel IH]; intros ed msg ed' H; [discriminate|].
  cbn [readLineLoop] in H.
  destruct (readLineHead_returns ed) as [r [ed1 Eh]]. rewrite Eh in H.
  destruct r as [lr | [k|]].
  - discriminate.
  - destruct (lookupKey X fuel k ed1) as [[[lr2|] ed2 | msg2 ed2]|] eqn:Ek;
      try discriminate.
    + apply (IH _ _ _ H).
    + injection H as <- <-. exists k. apply (lookupKey_panic Hinit _ _ _ _ _ Ek).
  - apply (IH _ _ _ H).
Qed.

(** X16.  Errors of the key reader never end ReadLine: on a terminal where
    every key read fails and every refresh succeeds, a ReadLine that got
    past [startReadLine] does not return, however much fuel it is given. *)
Theorem ReadLine_spins_on_read_errors (fuel : nat) ed ed1 :
  (forall w, exists e w', readKey X w = (inr e, w')) ->
  (forall s w, fst (writer_refresh X s w) = None) ->
  startReadLine X ed = Ok None ed1 ->
  ReadLine X p rp fuel ed = None.
Proof.
  intros Hkey Hrefresh Hs.
  assert (Hhead : forall ed0, exists ed0', readLineHead X p rp ed0 = Ok (inr None) ed0').
  { intros ed0.
    unfold readLineHead, refresh, bind, call, get, modify, ret, pushTip. simpl.
    destruct (p (world ed0)) as [s1 w1]. simpl.
    destruct (rp w1) as [s2 w2]. simpl.
    destruct (negb (bufferMode_eqb (mode (es ed0)) modeCompletion)); simpl;
      match goal with
      | |- context [writer_refresh X ?s ?w] =>
          pose proof (Hrefresh s w) as Hr;
          destruct (writer_refresh X s w) as [e w3]
      end; simpl in *; subst e; simpl;
      match goal with
      | |- context [readKey X ?w] =>
          destruct (Hkey w) as [e [w4 Ek]]; rewrite Ek
      end; simpl; eauto. }
  assert (Hloop : forall (f : nat) ed0, readLineLoop X p rp f ed0 = None).
  { induction f as [|f IH]; intros ed0; [reflexivity|].
    cbn [readLineLoop]. destruct (Hhead ed0) as [ed0' E]. rewrite E. apply IH. }
  unfold ReadLine. rewrite Hs, Hloop. reflexivity.
Qed.

End DispatchFacts.

Lemma init_guards_dispatch_witness :
  exists ed' k,
    panicOfBuiltin ScriptedMore.XAll k "slice bounds out of range" ed'.
Proof.
  eexists.
  refine (init_guards_dispatch ScriptedMore.XAll Scripted.no_prompt
            Scripted.no_prompt _ 5
            (set_world (Scripted.mkWorld [Scripted.key "a"] (inl (1, 1)) [])
               ScriptedMore.editorDotOutside) _ _ _).
  - vm_compute. reflexivity.
  - vm_compute. reflexivity.
Defined.

Lemma ReadLine_spins_on_read_errors_witness :
  ReadLine ScriptedMore.XNoKeys Scripted.no_prompt Scripted.no_prompt 1000
    (Scripted.New Scripted.worldEnter) = None.
Proof.
  eapply (ReadLine_spins_on_read_errors ScriptedMore.XNoKeys).
  - intros w. eexists. eexists. reflexivity.
  - intros s w. reflexivity.
  - vm_compute. reflexivity.
Defined.

(* ================================================================== *)
(** ** The highlighter                                                  *)
(* ================================================================== *)

Lemma Node_induction (P : parse.Node -> Prop) :
  (forall k children, Forall P children -> P (parse.mkNode k children)) ->
  forall nd, P nd.
Proof.
  intros HP. fix IH 1. intros [k children]. apply HP.
  induction children as [|c cs IHcs]; constructor; [apply IH | exact IHcs].
Qed.

Section GrowsFacts.

Lemma grows_ret {A} (a : A) : grows (ret a).
Proof. intros calls r calls' E. injection E as _ <-. exists []. symmetry. apply app_nil_r. Qed.

Lemma grows_panic {A} (msg : string) : grows (@panic (list styling) A msg).
Proof. intros calls r calls' E. discriminate. Qed.

Lemma grows_try {A} (o : option A) (msg : string) : grows (try o msg).
Proof. destruct o; [apply grows_ret | apply grows_panic]. Qed.

Lemma grows_addStyling (b e : Z) (style : string) : grows (addStyling b e style).
Proof. intros calls r calls' E. injection E as _ <-. eauto. Qed.

Lemma grows_bind {A B} (c : M (list styling) A) (k : A -> M (list styling) B) :
  grows c -> (forall a, grows (k a)) -> grows (bind c k).
Proof.
  intros Hc Hk calls r calls' E. unfold bind in E.
  destruct (c calls) as [a calls1 | msg calls1] eqn:E1; [|discriminate].
  destruct (Hc _ _ _ E1) as [a1 ->]. destruct (Hk a _ _ _ E) as [a2 ->].
  exists (a1 ++ a2). symmetry. apply app_assoc.
Qed.

Lemma grows_range {A} (l : list A) (body : A -> M (list styling) unit) :
  (forall a, grows (body a)) -> grows (range l body).
Proof.
  intros Hb. induction l as [|x l IH]; simpl.
  - apply grows_ret.
  - apply grows_bind; [apply Hb | intros _; exact IH].
Qed.

End GrowsFacts.

(** Goes through a computation on the stylings statement by statement. *)
Ltac grows_steps :=
  repeat first
    [ apply grows_ret | apply grows_panic | apply grows_try
    | apply grows_addStyling
    | apply grows_bind; [|intros]
    | apply grows_range; intros
    | match goal with
      | |- grows (match ?x with _ => _ end) => destruct x
      | |- grows (if ?x then _ else _) => destruct x
      | |- grows (let '(_, _) := ?x in _) => destruct x
      end ].

Section HighlightFacts.

Variable H : HighlightEnv.

Lemma grows_highlightKeyword (args : list parse.Compound.t) (i : Z) (name : string) :
  grows (highlightKeyword H args i name).
Proof. unfold highlightKeyword, addStylingAt. grows_steps. Qed.

Lemma grows_highlightForm (f : parse.Form.t) : grows (highlightForm H f).
Proof.
  unfold highlightForm, highlightFor, highlightTry, formHead, styleVariable,
    addStylingAt.
  repeat first [ apply grows_highlightKeyword | grows_steps ].
Qed.

Lemma highlight_unfold (k : parse.kind) (children : list parse.Node) :
  highlight H (parse.mkNode k children) =
  bind (highlightKind H k) (fun _ => range children (highlight H)).
Proof.
  simpl. f_equal.
  induction children as [|c cs IH]; simpl; [reflexivity|].
  rewrite IH. reflexivity.
Qed.

(** What the type switch adds for the node itself. *)
Lemma highlightKind_adds (k : parse.kind) (calls calls1 : list styling) :
  highlightKind H k calls = Ok tt calls1 ->
  exists added,
    calls1 = calls ++ added /\
    (forall p, k = parse.IsPrimary p -> In (stylingOfPrimary H p) added) /\
    (forall s, k = parse.IsSep s -> In (stylingOfSep H s) added).
Proof.
  destruct k as [f | p | s |]; simpl; intros E.
  - destruct (grows_highlightForm f _ _ _ E) as [added ->].
    exists added. repeat split; discriminate.
  - injection E as <-. eexists. split; [reflexivity|].
    split; [|discriminate]. intros p' Hp. injection Hp as <-. left. reflexivity.
  - exists [stylingOfSep H s]. split.
    + unfold stylingOfSep.
      destruct (HasPrefix (parse.SourceText s) "#"); injection E as <-; reflexivity.
    + split; [discriminate|]. intros s' Hs. injection Hs as <-.
      left. reflexivity.
  - injection E as <-. exists []. rewrite app_nil_r.
    repeat split; discriminate.
Qed.

(** X18.  When [highlight] returns it has only added stylings, and among
    them is one for every [Primary] node of the tree, with the node's range
    and the style of its type, and one for every [Sep] node, with the
    comment style when its text starts with "#" and the style of its text
    otherwise: no node of the tree is left out. *)
Theorem highlight_styles_every_node (nd : parse.Node) :
  forall calls calls' : list styling,
    highlight H nd calls = Ok tt calls' ->
    exists added,
      calls' = calls ++ added /\
      (forall p, In p (primaries nd) -> In (stylingOfPrimary H p) added) /\
      (forall s, In s (separators nd) -> In (stylingOfSep H s) added).
Proof.
  induction nd as [k children IH] using Node_induction.
  intros calls calls' E. rewrite highlight_unfold in E. unfold bind in E.
  destruct (highlightKind H k calls) as [[] calls1 | msg calls1] eqn:Ek;
    [|discriminate].
  destruct (highlightKind_adds _ _ _ Ek) as [a1 [-> [Hp1 Hs1]]].
  assert (Hch : forall cs, Forall (fun nd =>
            forall calls calls' : list styling,
              highlight H nd calls = Ok tt calls' ->
              exists added,
                calls' = calls ++ added /\
                (forall p, In p (primaries nd) -> In (stylingOfPrimary H p) added) /\
                (forall s, In s (separators nd) -> In (stylingOfSep H s) added)) cs ->
          forall c0 c1, range cs (highlight H) c0 = Ok tt c1 ->
          exists added,
            c1 = c0 ++ added /\
            (forall p, In p (flat_map primaries cs) -> In (stylingOfPrimary H p) added) /\
            (forall s, In s (flat_map separators cs) -> In (stylingOfSep H s) added)).
  { induction 1 as [|c cs Hc Hcs IHcs]; intros c0 c1 Er; simpl in Er.
    - injection Er as <-. exists []. rewrite app_nil_r.
      repeat split; intros ? [].
    - unfold bind in Er.
      destruct (highlight H c c0) as [[] c2 | msg c2] eqn:Ec; [|discriminate].
      destruct (Hc _ _ Ec) as [a2 [-> [Hp2 Hs2]]].
      destruct (IHcs _ _ Er) as [a3 [-> [Hp3 Hs3]]].
      exists (a2 ++ a3). rewrite app_assoc. split; [reflexivity|].
      split; intros x Hx; simpl in Hx; apply in_app_or in Hx;
        apply in_or_app; destruct Hx; auto. }
  destruct (Hch children IH _ _ E) as [a2 [-> [Hp2 Hs2]]].
  exists (a1 ++ a2). rewrite app_assoc. split; [reflexivity|].
  split; intros x Hx; simpl in Hx; apply in_app_or in Hx; apply in_or_app;
    destruct Hx as [Hx | Hx]; auto; left.
  - destruct k; try contradiction. destruct Hx as [<- | []]. apply Hp1. reflexivity.
  - destruct k; try contradiction. destruct Hx as [<- | []]. apply Hs1. reflexivity.
Qed.

End HighlightFacts.

Lemma index_beyond {A} (l : list A) (i : Z) :
  len_slice l <= i -> index l i = None.
Proof.
  intros Hi. unfold index.
  replace (i <? len_slice l) with false by (symmetry; apply Z.ltb_ge; lia).
  rewrite andb_false_r. reflexivity.
Qed.

Lemma index_head {A} (x : A) (l : list A) : index (x :: l) 0 = Some x.
Proof. reflexivity. Qed.

Section TryFacts.

Variable H : HighlightEnv.

(** [highlightKeyword] at a position [i >= 0]: it returns whether there is
    an argument [i], and styles it when it reads [name]. *)
Lemma highlightKeyword_at (args : list parse.Compound.t) (i : Z) (name : string)
      (calls : list styling) :
  0 <= i ->
  highlightKeyword H args i name calls =
  Ok (negb (len_slice args <=? i)) (calls ++ keywordAt H args i name).
Proof.
  intros Hi. unfold highlightKeyword, keywordAt.
  destruct (len_slice args <=? i) eqn:E.
  - apply Z.leb_le in E. rewrite index_beyond by lia.
    rewrite app_nil_r. reflexivity.
  - apply Z.leb_gt in E.
    destruct (index_in_range args i (conj Hi E)) as [a Ha]. rewrite Ha.
    run_go. unfold addStylingAt, addStyling, modify.
    destruct (parse.SourceText (parse.Compound.info a) =? name)%string; simpl.
    + reflexivity.
    + rewrite app_nil_r. reflexivity.
Qed.

Lemma keywordAt_beyond (args : list parse.Compound.t) (i : Z) (name : string) :
  len_slice args <= i -> keywordAt H args i name = [].
Proof. intros Hi. unfold keywordAt. rewrite index_beyond by exact Hi. reflexivity. Qed.

Lemma variableAt_beyond (args : list parse.Compound.t) (i : Z) :
  len_slice args <= i -> variableAt H args i = [].
Proof. intros Hi. unfold variableAt. rewrite index_beyond by exact Hi. reflexivity. Qed.

(** X17.  In a [try] form the keywords are looked for at fixed places,
    whatever the arguments read: "except" at argument 1, the variable of
    the except clause at argument 2, "else" at argument 4 and "finally" at
    argument 6.  The stylings added are those four and no other, so an
    "else" or a "finally" that follows the body directly is not styled. *)
Theorem highlightTry_fixed_positions (args : list parse.Compound.t)
        (calls : list styling) :
  highlightTry H args calls =
  Ok tt (calls ++ keywordAt H args 1 "except" ++ variableAt H args 2
               ++ keywordAt H args 4 "else" ++ keywordAt H args 6 "finally").
Proof.
  unfold highlightTry, bind.
  rewrite highlightKeyword_at by lia.
  change (int_add 1 1) with 2. change (int_add 1 3) with 4.
  destruct (len_slice args <=? 1) eqn:E1; simpl.
  - apply Z.leb_le in E1.
    rewrite highlightKeyword_at by lia.
    replace (len_slice args <=? 1) with true by (symmetry; apply Z.leb_le; lia).
    simpl. rewrite highlightKeyword_at by lia.
    replace (len_slice args <=? 1) with true by (symmetry; apply Z.leb_le; lia).
    simpl. unfold ret.
    rewrite ?(keywordAt_beyond args 1 "except"),
      ?(keywordAt_beyond args 1 "else"), ?(keywordAt_beyond args 1 "finally"),
      ?(keywordAt_beyond args 4 "else"), ?(keywordAt_beyond args 6 "finally"),
      ?variableAt_beyond by lia.
    rewrite !app_nil_r. reflexivity.
  - apply Z.leb_gt in E1.
    assert (Hvar : forall c0,
              (if (2 <? len_slice args) &&
                  match index args 2 with
                  | Some a => 0 <? len_slice (parse.Compound.Indexings a)
                  | None => false
                  end
               then
                 bind (try (index args 2) "index out of range") (fun a =>
                 bind (try (index (parse.Compound.Indexings a) 0)
                         "index out of range") (fun v =>
                 addStylingAt (parse.Indexing.info v)
                   (styles_String H (styleForGoodVariable H))))
               else ret tt) c0 = Ok tt (c0 ++ variableAt H args 2)).
    { intros c0. unfold variableAt.
      destruct (index args 2) as [a|] eqn:E2.
      - apply index_Some_range in E2 as R.
        replace (2 <? len_slice args) with true by (symmetry; apply Z.ltb_lt; lia).
        unfold bind, try, ret. cbv beta iota.
        destruct (parse.Compound.Indexings a) as [|v vs].
        + simpl. rewrite app_nil_r. reflexivity.
        + rewrite index_head.
          replace (0 <? len_slice (v :: vs)) with true by reflexivity.
          reflexivity.
      - rewrite andb_false_r, app_nil_r. reflexivity. }
    rewrite Hvar. simpl.
    rewrite highlightKeyword_at by lia.
    destruct (len_slice args <=? 4) eqn:E4; simpl.
    + apply Z.leb_le in E4.
      rewrite highlightKeyword_at by lia.
      replace (len_slice args <=? 4) with true by (symmetry; apply Z.leb_le; lia).
      simpl. unfold ret.
      rewrite ?(keywordAt_beyond args 4 "else"),
        ?(keywordAt_beyond args 4 "finally"),
        ?(keywordAt_beyond args 6 "finally") by lia.
      rewrite !app_nil_r, <- !app_assoc. reflexivity.
    + change (int_add 4 2) with 6.
      rewrite highlightKeyword_at by lia. simpl. unfold ret.
      rewrite <- !app_assoc. reflexivity.
Qed.

End TryFacts.

(** In "try {a} finally {b}" the word "finally" is argument 1: it gets the
    style of its primary node and not that of the keyword. *)
Example highlight_try_finally_is_not_styled :
  exists calls,
    highlight ScriptedHighlight.env ScriptedHighlight.tryFinally [] = Ok tt calls /\
    In (8, 15, "") calls /\ ~ In (8, 15, "1") calls.
Proof.
  eexists. split; [vm_compute; reflexivity|]. split.
  - simpl. auto 20.
  - simpl. intros Hin.
    repeat (destruct Hin as [Hin | Hin]; [discriminate|]). exact Hin.
Qed.

Lemma highlight_styles_every_node_witness :
  exists added,
    (forall p, In p (primaries ScriptedHighlight.tryFinally) ->
               In (stylingOfPrimary ScriptedHighlight.env p) added) /\
    (forall s, In s (separators ScriptedHighlight.tryFinally) ->
               In (stylingOfSep ScriptedHighlight.env s) added).
Proof.
  destruct (highlight_styles_every_node ScriptedHighlight.env
              ScriptedHighlight.tryFinally [] _ eq_refl) as [added [_ Hall]].
  exists added. exact Hall.
Defined.

(* ================================================================== *)
(** ** Good form heads                                                  *)
(* ================================================================== *)

Section HeadFacts.

Variable E : HeadEnv.

Lemma lookupBool_cons (k0 : string) (v : bool) (m : list (string * bool))
      (k : string) :
  lookupBool ((k0, v) :: m) k = if (k0 =? k)%string then v else lookupBool m k.
Proof. unfold lookupBool. simpl. destruct (k0 =? k)%string; reflexivity. Qed.

Lemma fold_assign_true (names : list string) :
  forall (m : list (string * bool)) (k : string),
    lookupBool (fold_left (fun m name => (name, true) :: m) names m) k = true
    <-> In k names \/ lookupBool m k = true.
Proof.
  induction names as [|x names IH]; intros m k; simpl.
  - tauto.
  - rewrite IH, lookupBool_cons. destruct (x =? k)%string eqn:Ex.
    + apply String.eqb_eq in Ex. subst. tauto.
    + apply String.eqb_neq in Ex. split.
      * intros [Hin | Hm]; auto.
      * intros [[Heq | Hin] | Hm]; auto; contradiction.
Qed.

(** The map [isBuiltinSpecial] holds true exactly at the names of
    [eval.BuiltinSpecialNames]. *)
Lemma isBuiltinSpecial_iff (k : string) :
  lookupBool (isBuiltinSpecial E) k = true <-> In k (BuiltinSpecialNames E).
Proof.
  unfold isBuiltinSpecial. rewrite fold_assign_true.
  split; [intros [Hin | Hm]; [exact Hin | discriminate] | auto].
Qed.

(** X19.  Every name of [eval.BuiltinSpecialNames] is a good form head,
    whatever the file system and the evaluator say; a head that is not
    path-like and names an external command is good; and a head judged bad
    is no special name, is neither executable nor a directory when it is
    path-like, and is no external command when it is not. *)
Theorem goodFormHead_special_and_external (head : string) :
  (In head (BuiltinSpecialNames E) -> goodFormHead E head = true) /\
  (DontSearch E head = false -> isExternal E head = true ->
   goodFormHead E head = true) /\
  (goodFormHead E head = false ->
   ~ In head (BuiltinSpecialNames E) /\
   (DontSearch E head = true ->
    IsExecutable E head = false /\ Stat E head <> Some true) /\
   (DontSearch E head = false -> isExternal E head = false)).
Proof.
  unfold goodFormHead.
  destruct (lookupBool (isBuiltinSpecial E) head) eqn:Es.
  - split; [reflexivity|]. split; [reflexivity|]. discriminate.
  - assert (Hn : ~ In head (BuiltinSpecialNames E)).
    { intros Hin. apply isBuiltinSpecial_iff in Hin. congruence. }
    split; [intros Hin; contradiction|].
    destruct (DontSearch E head) eqn:Ed.
    + split; [discriminate|]. intros Hg.
      apply orb_false_iff in Hg. destruct Hg as [Hx Hdir].
      split; [exact Hn|]. split; [|discriminate]. intros _.
      split; [exact Hx|]. unfold isDir in Hdir.
      destruct (Stat E head) as [[]|]; congruence.
    + destruct (ParseVariable E head) as [[explode ns] name].
      match goal with
      | |- context [if ?c then true else isExternal E head] => destruct c
      end.
      * split; [reflexivity|]. discriminate.
      * split; [intros _ Hx; exact Hx|]. intros Hg.
        split; [exact Hn|]. split; [discriminate|]. intros _. exact Hg.
Qed.

End HeadFacts.

(* ================================================================== *)
(** ** The lines, the listing and the command line                      *)
(* ================================================================== *)

Lemma runesWritten_app (a b : list bufferCall) :
  runesWritten (a ++ b) = runesWritten a ++ runesWritten b.
Proof. apply flat_map_app. Qed.

Lemma writesCalls_app (a b : list bufferCall) :
  writesCalls (a ++ b) = writesCalls a ++ writesCalls b.
Proof. apply flat_map_app. Qed.

Lemma dotSettings_app (a b : list bufferCall) :
  dotSettings (a ++ b) = (dotSettings a + dotSettings b)%nat.
Proof. unfold dotSettings. rewrite filter_app, length_app. reflexivity. Qed.

Lemma newlines_app (a b : list bufferCall) :
  newlines (a ++ b) = (newlines a + newlines b)%nat.
Proof. unfold newlines. rewrite filter_app, length_app. reflexivity. Qed.

Section MoreRendererFacts.

Context {buffer Pos Styling Applier : Type}.
Variable O : @ScreenOps buffer Pos Styling Applier.
Implicit Types sc : @screen buffer.

(** A [linesRenderer] does not use its style: whatever [style] is, the
    render makes the one call [writes] with the lines joined by newlines
    and the empty style. *)
Remark linesRenderer_ignores_style (ls : list string) (s1 s2 : string) sc :
  linesRenderer_render O (mkLinesRenderer ls s1) sc =
  linesRenderer_render O (mkLinesRenderer ls s2) sc /\
  exists b',
    linesRenderer_render O (mkLinesRenderer ls s1) sc =
    Ok tt (b', snd sc ++ [DoWrites (Join O ls (String "010" "")) ""]).
Proof.
  split; [reflexivity|]. eexists. reflexivity.
Qed.



End MoreRendererFacts.

Section CmdlineFacts.

Context {buffer Pos Styling Applier : Type}.
Variable O : @ScreenOps buffer Pos Styling Applier.
Variable clr : cmdlineRenderer.t Styling.
Implicit Types sc : @screen buffer.

(** What one call of [nowAt] at the byte [i] adds to the record. *)
Lemma nowAt_calls (i : Z) (ap : Applier) sc :
  exists b',
    nowAt O clr i ap sc =
    Ok (s_at O i ap)
       (b', snd sc ++
            (if cmdlineRenderer.hasComp clr &&
                (i =? cmdlineRenderer.compBegin clr)
             then [DoWrites (cmdlineRenderer.compText clr)
                     (styles_to_String O (styleForCompleted O))]
             else []) ++
            (if i =? cmdlineRenderer.dot clr then [SetDot] else [])).
Proof.
  destruct sc as [b l].
  unfold nowAt, bind, writes_, set_dot_to_cursor, on_buffer, modify, ret.
  destruct (cmdlineRenderer.hasComp clr && (i =? cmdlineRenderer.compBegin clr));
    destruct (i =? cmdlineRenderer.dot clr); simpl;
    rewrite <- ?app_assoc, ?app_nil_r; simpl; eexists; reflexivity.
Qed.

(** The loop over the runes of the line, when no history is shown: it
    returns, writes one by one the runes outside the replaced range, sets
    the dot once for each rune boundary that equals [clr.dot], and writes
    the candidate once for each boundary that equals [clr.compBegin]. *)
Lemma cmdlineLoop_calls (Hh : cmdlineRenderer.hasHist clr = false)
      (rs : list Z) :
  forall (i : Z) (ap : Applier) sc,
    exists b' added,
      cmdlineLoop O clr rs i ap sc = Ok tt (b', snd sc ++ added) /\
      runesWritten added =
        (if cmdlineRenderer.hasComp clr
         then runesOutside (RuneLen O) (cmdlineRenderer.compBegin clr)
                (cmdlineRenderer.compEnd clr) i rs
         else rs) /\
      dotSettings added =
        count_occ Z.eq_dec (boundariesAfter (RuneLen O) i rs)
          (cmdlineRenderer.dot clr) /\
      writesCalls added =
        repeat (cmdlineRenderer.compText clr,
                styles_to_String O (styleForCompleted O))
          (if cmdlineRenderer.hasComp clr
           then count_occ Z.eq_dec (boundariesAfter (RuneLen O) i rs)
                  (cmdlineRenderer.compBegin clr)
           else 0%nat).
Proof.
  induction rs as [|r rs IH]; intros i ap sc.
  - destruct sc as [b l]. exists b, []. simpl. rewrite app_nil_r.
    destruct (cmdlineRenderer.hasComp clr); auto.
  - cbn [cmdlineLoop]. rewrite Hh. cbn [andb].
    set (skip := cmdlineRenderer.hasComp clr &&
                 (cmdlineRenderer.compBegin clr <=? i) &&
                 (i <? cmdlineRenderer.compEnd clr)).
    set (i' := int_add i (RuneLen O r)).
    set (sc1 := if skip then sc
                else (s_write O r (s_get O ap) (fst sc),
                      snd sc ++ [DoWrite r (s_get O ap)])).
    destruct (nowAt_calls i' ap sc1) as [b1 E1].
    destruct (IH i' (s_at O i' ap) (b1, snd sc1 ++
       (if cmdlineRenderer.hasComp clr && (i' =? cmdlineRenderer.compBegin clr)
        then [DoWrites (cmdlineRenderer.compText clr)
                (styles_to_String O (styleForCompleted O))]
        else []) ++
       (if i' =? cmdlineRenderer.dot clr then [SetDot] else [])))
      as [b' [added [E [Hr [Hd Hw]]]]].
    exists b'.
    exists ((if skip then [] else [DoWrite r (s_get O ap)]) ++
            ((if cmdlineRenderer.hasComp clr &&
                 (i' =? cmdlineRenderer.compBegin clr)
              then [DoWrites (cmdlineRenderer.compText clr)
                      (styles_to_String O (styleForCompleted O))]
              else []) ++
             (if i' =? cmdlineRenderer.dot clr then [SetDot] else [])) ++
            added).
    split.
    { unfold bind at 1.
      replace ((if skip then ret tt else write_ O r (s_get O ap)) sc)
        with (Ok tt sc1 : res screen unit)
        by (unfold sc1; destruct skip; reflexivity).
      unfold bind at 1. rewrite E1. rewrite E. cbn [snd].
      f_equal. f_equal. unfold sc1. destruct skip; cbn [snd];
        rewrite <- ?app_assoc; reflexivity. }
    rewrite !runesWritten_app, !dotSettings_app, !writesCalls_app, Hr, Hd, Hw.
    cbn [runesOutside boundariesAfter count_occ]. fold i'.
    split; [|split].
    + unfold skip.
      destruct (cmdlineRenderer.hasComp clr); cbn [andb];
        [destruct ((cmdlineRenderer.compBegin clr <=? i) &&
                   (i <? cmdlineRenderer.compEnd clr))|];
        destruct (i' =? cmdlineRenderer.compBegin clr);
        destruct (i' =? cmdlineRenderer.dot clr); reflexivity.
    + destruct (Z.eq_dec i' (cmdlineRenderer.dot clr)) as [e|ne].
      * apply Z.eqb_eq in e. rewrite e.
        destruct skip;
          destruct (cmdlineRenderer.hasComp clr &&
                    (i' =? cmdlineRenderer.compBegin clr)); reflexivity.
      * apply Z.eqb_neq in ne. rewrite ne.
        destruct skip;
          destruct (cmdlineRenderer.hasComp clr &&
                    (i' =? cmdlineRenderer.compBegin clr)); reflexivity.
    + destruct (cmdlineRenderer.hasComp clr); cbn [andb].
      * destruct (Z.eq_dec i' (cmdlineRenderer.compBegin clr)) as [e|ne].
        -- apply Z.eqb_eq in e. rewrite e.
           destruct skip; destruct (i' =? cmdlineRenderer.dot clr);
             reflexivity.
        -- apply Z.eqb_neq in ne. rewrite ne.
           destruct skip; destruct (i' =? cmdlineRenderer.dot clr);
             reflexivity.
      * destruct skip; destruct (i' =? cmdlineRenderer.dot clr); reflexivity.
Qed.

(** The whole render, when no history is shown. *)
Lemma cmdlineRenderer_calls (Hh : cmdlineRenderer.hasHist clr = false) sc :
  exists b' added,
    cmdlineRenderer_render O clr sc = Ok tt (b', snd sc ++ added) /\
    runesWritten added =
      (if cmdlineRenderer.hasComp clr
       then runesOutside (RuneLen O) (cmdlineRenderer.compBegin clr)
              (cmdlineRenderer.compEnd clr) 0
              (runes O (cmdlineRenderer.line clr))
       else runes O (cmdlineRenderer.line clr)) /\
    dotSettings added =
      count_occ Z.eq_dec
        (0 :: boundariesAfter (RuneLen O) 0 (runes O (cmdlineRenderer.line clr)))
        (cmdlineRenderer.dot clr) /\
    writesCalls added =
      repeat (cmdlineRenderer.compText clr,
              styles_to_String O (styleForCompleted O))
        (if cmdlineRenderer.hasComp clr
         then count_occ Z.eq_dec
                (0 :: boundariesAfter (RuneLen O) 0
                        (runes O (cmdlineRenderer.line clr)))
                (cmdlineRenderer.compBegin clr)
         else 0%nat).
Proof.
  destruct sc as [b l].
  cbv beta iota zeta delta [cmdlineRenderer_render bind get modify
    set_newlineWhenFull writeStyleds_ writePadding_ on_buffer
    set_indent_to_col].
  cbn [fst snd]. rewrite Hh.
  set (b0 := s_writeStyleds O (cmdlineRenderer.prompt clr)
               (s_set_newlineWhenFull O true b)).
  set (indent := (s_line O b0 =? 0) && (int_mul (s_col O b0) 2 <? s_width O b0)).
  set (pre := [SetNewlineWhenFull true;
               DoWriteStyleds (cmdlineRenderer.prompt clr)] ++
              (if indent then [SetIndent] else [])).
  set (sc1 := ((if indent then s_set_indent O (s_col O b0) b0 else b0),
               l ++ pre) : screen).
  destruct (nowAt_calls 0 (s_apply O (cmdlineRenderer.styling clr)) sc1)
    as [b1 E1].
  match type of E1 with _ = Ok _ ?s1 =>
    destruct (cmdlineLoop_calls Hh (runes O (cmdlineRenderer.line clr)) 0
                (s_at O 0 (s_apply O (cmdlineRenderer.styling clr))) s1)
      as [b2 [added [E2 [Hr [Hd Hw]]]]]
  end.
  cbn [snd] in E1, E2.
  set (at0 := (if cmdlineRenderer.hasComp clr &&
                  (0 =? cmdlineRenderer.compBegin clr)
               then [DoWrites (cmdlineRenderer.compText clr)
                       (styles_to_String O (styleForCompleted O))]
               else []) ++
              (if 0 =? cmdlineRenderer.dot clr then [SetDot] else [])) in *.
  set (padding := rpromptPadding O (int_sub (s_width O b2) (s_col O b2))
                    (cmdlineRenderer.rprompt clr)).
  set (shown := (0 <? len_slice (cmdlineRenderer.rprompt clr)) &&
                (1 <=? padding)).
  set (rp := if shown
             then [SetNewlineWhenFull false; DoWritePadding padding "";
                   DoWriteStyleds (cmdlineRenderer.rprompt clr)]
             else []).
  exists (if shown
          then s_writeStyleds O (cmdlineRenderer.rprompt clr)
                 (s_writePadding O padding ""
                    (s_set_newlineWhenFull O false b2))
          else b2).
  exists (pre ++ at0 ++ added ++ rp).
  split.
  - match goal with
    | |- match ?X with Ok _ _ => _ | Panic _ _ => _ end = _ =>
        assert (Hs : X = Ok tt sc1)
          by (unfold sc1, pre, ret; destruct indent; cbn [fst snd app];
              rewrite <- ?app_assoc; reflexivity);
        rewrite Hs
    end.
    rewrite E1, E2. unfold ret, rp, shown.
    destruct (0 <? len_slice (cmdlineRenderer.rprompt clr));
      cbv beta; cbn [fst snd]; fold padding;
      [destruct (1 <=? padding)|];
      cbv beta; unfold sc1; cbn [fst snd andb app];
      rewrite <- ?app_assoc, ?app_nil_r; cbn [app]; reflexivity.
  - rewrite !runesWritten_app, !dotSettings_app, !writesCalls_app, Hr, Hd, Hw.
    assert (Hpre : runesWritten pre = [] /\ dotSettings pre = 0%nat /\
                   writesCalls pre = []).
    { unfold pre. destruct indent; auto. }
    assert (Hrp : runesWritten rp = [] /\ dotSettings rp = 0%nat /\
                  writesCalls rp = []).
    { unfold rp. destruct shown; auto. }
    destruct Hpre as [-> [-> ->]]. destruct Hrp as [-> [-> ->]].
    rewrite !app_nil_r. cbn [count_occ app plus].
    unfold at0.
    split; [|split].
    + destruct (cmdlineRenderer.hasComp clr &&
                (0 =? cmdlineRenderer.compBegin clr));
        destruct (0 =? cmdlineRenderer.dot clr); reflexivity.
    + destruct (Z.eq_dec 0 (cmdlineRenderer.dot clr)) as [e|ne].
      * apply Z.eqb_eq in e. rewrite e.
        destruct (cmdlineRenderer.hasComp clr &&
                  (0 =? cmdlineRenderer.compBegin clr)); simpl; lia.
      * apply Z.eqb_neq in ne. rewrite ne.
        destruct (cmdlineRenderer.hasComp clr &&
                  (0 =? cmdlineRenderer.compBegin clr)); simpl; lia.
    + destruct (cmdlineRenderer.hasComp clr); cbn [andb].
      * destruct (Z.eq_dec 0 (cmdlineRenderer.compBegin clr)) as [e|ne].
        -- apply Z.eqb_eq in e. rewrite e.
           destruct (0 =? cmdlineRenderer.dot clr); reflexivity.
        -- apply Z.eqb_neq in ne. rewrite ne.
           destruct (0 =? cmdlineRenderer.dot clr); reflexivity.
      * destruct (0 =? cmdlineRenderer.dot clr); reflexivity.
Qed.

(** X21.  While no history is shown, rendering the command line always
    returns and writes, one by one, exactly the runes
    of the line whose first byte lies outside the bytes [compBegin] to
    [compEnd] (all the runes when no completion is shown); the candidate's
    text is written once for each rune boundary of the line, the start
    included, that equals [compBegin], so not at all when [compBegin] falls
    inside a rune or beyond the end of the line, although the replaced
    runes are still left out. *)
Theorem cmdlineRenderer_hides_replaced_range
        (Hh : cmdlineRenderer.hasHist clr = false) sc :
  exists b' added,
    cmdlineRenderer_render O clr sc = Ok tt (b', snd sc ++ added) /\
    runesWritten added =
      (if cmdlineRenderer.hasComp clr
       then runesOutside (RuneLen O) (cmdlineRenderer.compBegin clr)
              (cmdlineRenderer.compEnd clr) 0
              (runes O (cmdlineRenderer.line clr))
       else runes O (cmdlineRenderer.line clr)) /\
    writesCalls added =
      repeat (cmdlineRenderer.compText clr,
              styles_to_String O (styleForCompleted O))
        (if cmdlineRenderer.hasComp clr
         then count_occ Z.eq_dec
                (0 :: boundariesAfter (RuneLen O) 0
                        (runes O (cmdlineRenderer.line clr)))
                (cmdlineRenderer.compBegin clr)
         else 0%nat).
Proof.
  destruct (cmdlineRenderer_calls Hh sc) as [b' [added [E [Hr [_ Hw]]]]].
  exists b', added. auto.
Qed.

(** X22.  While no history is shown, rendering the command line sets the
    dot of the buffer once for each rune boundary of the line, the start
    included, that equals [clr.dot]: the prompt and the rprompt never set
    it, and a [clr.dot] inside a rune or beyond the end of the line leaves
    the dot of the buffer as it was. *)
Theorem cmdlineRenderer_sets_dot_at_boundaries
        (Hh : cmdlineRenderer.hasHist clr = false) sc :
  exists b' added,
    cmdlineRenderer_render O clr sc = Ok tt (b', snd sc ++ added) /\
    dotSettings added =
      count_occ Z.eq_dec
        (0 :: boundariesAfter (RuneLen O) 0 (runes O (cmdlineRenderer.line clr)))
        (cmdlineRenderer.dot clr).
Proof.
  destruct (cmdlineRenderer_calls Hh sc) as [b' [added [E [_ [Hd _]]]]].
  exists b', added. auto.
Qed.

End CmdlineFacts.

Lemma cmdlineRenderer_hides_replaced_range_witness :
  cmdlineRenderer.hasHist (ScriptedScreen.cmdline true 6) = false /\
  exists b' added,
    cmdlineRenderer_render ScriptedScreen.O (ScriptedScreen.cmdline true 6)
      (ScriptedScreen.newBuffer 80, []) = Ok tt (b', added) /\
    runesWritten added = ScriptedScreen.bytes "echo " /\
    writesCalls added = [("hello", "4")].
Proof.
  split; [reflexivity|].
  exact (cmdlineRenderer_hides_replaced_range ScriptedScreen.O
           (ScriptedScreen.cmdline true 6) eq_refl
           (ScriptedScreen.newBuffer 80, [])).
Defined.

Lemma cmdlineRenderer_sets_dot_at_boundaries_witness :
  cmdlineRenderer.hasHist (ScriptedScreen.cmdline false 7) = false /\
  exists b' added,
    cmdlineRenderer_render ScriptedScreen.O (ScriptedScreen.cmdline false 7)
      (ScriptedScreen.newBuffer 80, []) = Ok tt (b', added) /\
    dotSettings added = 0%nat.
Proof.
  split; [reflexivity|].
  exact (cmdlineRenderer_sets_dot_at_boundaries ScriptedScreen.O
           (ScriptedScreen.cmdline false 7) eq_refl
           (ScriptedScreen.newBuffer 80, [])).
Defined.
